(** * qtmips_cli: command-line configuration front end

    Shallow embedding of [qtmips_cli/main.cpp] (QtMips, MIPS simulator CLI):
    the option-string parsers [configure_cache], [configure_machine],
    [configure_tracer], [configure_reporter] and the memory pre-loader
    [load_ranges], together with the Qt and libstdc++ string primitives they
    call.

    Conventions of the model
    - text is 8-bit: a [QString] / [std::string] is a [string] of [ascii];
      the character classes are the ASCII ones;
    - [int] is 32 bits, [long] 64 bits (LP64), [unsigned], [std::uint32_t]
      are 32 bits, [unsigned long] is 64 bits;
    - [exit(1)] after a diagnostic and an uncaught C++ exception are the two
      abnormal outcomes of a run; the state reached at that point is kept;
    - Machine, Tracer, Reporter and the memory are outside this file of the
      program: a call into them is recorded in a log, in call order. *)

From Stdlib Require Import ZArith String Ascii List Bool Lia.
Import ListNotations.

Local Open Scope string_scope.
Local Open Scope Z_scope.

(** ** Machine integers *)

Definition UINT32_MOD : Z := 2 ^ 32.
Definition INT_MIN : Z := - 2 ^ 31.
Definition INT_MAX : Z := 2 ^ 31 - 1.
Definition LONG_MIN : Z := - 2 ^ 63.
Definition LONG_MAX : Z := 2 ^ 63 - 1.
Definition ULONG_MAX : Z := 2 ^ 64 - 1.
Definition ULONG_MOD : Z := 2 ^ 64.

(** Conversion of any integer value to [std::uint32_t] / [unsigned]. *)
Definition to_uint32 (v : Z) : Z := v mod UINT32_MOD.

(** ** Characters *)

Definition code (c : ascii) : Z := Z.of_N (N_of_ascii c).

Definition is_digit (c : ascii) : bool := (48 <=? code c) && (code c <=? 57).

(** [isspace] in the C locale, [QChar::isSpace] on ASCII. *)
Definition is_space (c : ascii) : bool :=
  ((9 <=? code c) && (code c <=? 13)) || (code c =? 32).

Definition is_upper (c : ascii) : bool := (65 <=? code c) && (code c <=? 90).
Definition is_lower (c : ascii) : bool := (97 <=? code c) && (code c <=? 122).

Definition tolower (c : ascii) : ascii :=
  if is_upper c then ascii_of_N (Z.to_N (code c + 32)) else c.

(** Value of a digit in bases up to 36, as [strtol] reads it. *)
Definition digit_value (c : ascii) : option Z :=
  if is_digit c then Some (code c - 48)
  else if is_lower c then Some (code c - 97 + 10)
  else if is_upper c then Some (code c - 65 + 10)
  else None.

Definition digit_in (base : Z) (c : ascii) : option Z :=
  match digit_value c with
  | Some d => if d <? base then Some d else None
  | None => None
  end.

(** ** Number scanning ([strtol] family) *)

Module Scan.

(** Result of scanning the subject sequence: sign, magnitude, and the
    number of characters consumed (white space, sign and prefix included). *)
Record t : Type := mk { neg : bool; mag : Z; used : nat }.

(** Longest run of digits of [base], accumulated from [acc]; the count of
    digits read and the value. *)
Fixpoint digits (base : Z) (s : string) (acc : Z) (n : nat) : Z * nat :=
  match s with
  | String c s' =>
      match digit_in base c with
      | Some d => digits base s' (acc * base + d) (S n)
      | None => (acc, n)
      end
  | EmptyString => (acc, n)
  end.

Fixpoint skip_space (s : string) (n : nat) : string * nat :=
  match s with
  | String c s' => if is_space c then skip_space s' (S n) else (s, n)
  | EmptyString => (s, n)
  end.

Definition sign (s : string) (n : nat) : bool * string * nat :=
  match s with
  | String "-" s' => (true, s', S n)
  | String "+" s' => (false, s', S n)
  | _ => (false, s, n)
  end.

(** Base 0: [0x]/[0X] followed by a hexadecimal digit selects base 16, a
    leading [0] base 8, anything else base 10.  Returns the base and what
    is left after the prefix. *)
Definition detect (base : Z) (s : string) (n : nat) : Z * string * nat :=
  if base =? 0 then
    match s with
    | String "0" (String x (String h s')) =>
        if ((x =? "x") || (x =? "X"))%char then
          match digit_in 16 h with
          | Some _ => (16, String h s', S (S n))
          | None => (8, s, n)
          end
        else (8, s, n)
    | String "0" _ => (8, s, n)
    | _ => (10, s, n)
    end
  else (base, s, n).

(** The scan itself; [None] when no digit could be read (no conversion). *)
Definition number (base : Z) (s : string) : option t :=
  let '(s1, n1) := skip_space s 0 in
  let '(sg, s2, n2) := sign s1 n1 in
  let '(b, s3, n3) := detect base s2 n2 in
  let '(v, k) := digits b s3 0 0 in
  match k with
  | O => None
  | _ => Some (mk sg v (n3 + k))
  end.

End Scan.

(** ** libstdc++ strings *)

Module Std.

Inductive exn : Type := invalid_argument | out_of_range.

Definition in_set (set : string) (c : ascii) : bool :=
  existsb (Ascii.eqb c) (list_ascii_of_string set).

(** [s.find_first_not_of(set)]; [None] is [npos]. *)
Fixpoint find_first_not_of (set : string) (s : string) : option nat :=
  match s with
  | EmptyString => None
  | String c s' =>
      if in_set set c then option_map S (find_first_not_of set s')
      else Some O
  end.

(** [s.find_last_not_of(set)]; [None] is [npos]. *)
Fixpoint find_last_not_of (set : string) (s : string) : option nat :=
  match s with
  | EmptyString => None
  | String c s' =>
      match find_last_not_of set s' with
      | Some i => Some (S i)
      | None => if in_set set c then None else Some O
      end
  end.

Fixpoint drop (n : nat) (s : string) : string :=
  match n, s with
  | O, _ => s
  | S n', String _ s' => drop n' s'
  | S _, EmptyString => EmptyString
  end.

Fixpoint take (n : nat) (s : string) : string :=
  match n, s with
  | S n', String c s' => String c (take n' s')
  | _, _ => EmptyString
  end.

(** [s.substr(pos, n)] and [s.substr(pos)], for [pos <= s.size()]. *)
Definition substr (s : string) (pos n : nat) : string := take n (drop pos s).
Definition substr_from (s : string) (pos : nat) : string := drop pos s.

(** [std::stoul(s, &idx, 0)]: the value as [unsigned long] and [idx], or the
    exception thrown.  A minus sign negates in [unsigned long]. *)
Definition stoul (s : string) (base : Z) : (Z * nat) + exn :=
  match Scan.number base s with
  | None => inr invalid_argument
  | Some r =>
      if Scan.mag r >? ULONG_MAX then inr out_of_range
      else inl ((if Scan.neg r then (- Scan.mag r) mod ULONG_MOD
                 else Scan.mag r), Scan.used r)
  end.

(** The lines [getline(in, line)] delivers for a stream holding [s]:
    split at each newline, a last line without newline included. *)
Fixpoint getlines_from (cur : string) (s : string) : list string :=
  match s with
  | EmptyString => if (cur =? "")%string then [] else [cur]
  | String c s' =>
      if (c =? "010")%char then cur :: getlines_from "" s'
      else getlines_from (cur ++ String c "") s'
  end.

Definition getlines (s : string) : list string := getlines_from "" s.

End Std.

(** ** Qt strings *)

Module Qt.

Definition isDigit (c : ascii) : bool := is_digit c.

Definition toLower (s : string) : string :=
  string_of_list_ascii (map tolower (list_ascii_of_string s)).

(** [s.split(",")], empty parts kept. *)
Fixpoint split (s : string) : list string :=
  match s with
  | EmptyString => [""]
  | String c s' =>
      if (c =? ",")%char then "" :: split s'
      else match split s' with
           | h :: t => String c h :: t
           | [] => [String c ""]
           end
  end.

(** [s.indexOf(",", from)] for [0 <= from]; -1 when there is none. *)
Fixpoint indexOf_comma_nat (s : string) (from : nat) : option nat :=
  match s with
  | EmptyString => None
  | String c s' =>
      match from with
      | S from' => option_map S (indexOf_comma_nat s' from')
      | O => if (c =? ",")%char then Some O
             else option_map S (indexOf_comma_nat s' O)
      end
  end.

Definition indexOf_comma (s : string) (from : Z) : Z :=
  match indexOf_comma_nat s (Z.to_nat from) with
  | Some i => Z.of_nat i
  | None => -1
  end.

(** [s.mid(pos, n)] and [s.mid(pos)], for [0 <= pos]; a negative [n] or
    one past the end gives the rest of the string. *)
Definition mid (s : string) (pos n : Z) : string :=
  if n <? 0 then Std.drop (Z.to_nat pos) s
  else Std.take (Z.to_nat n) (Std.drop (Z.to_nat pos) s).

Definition mid_from (s : string) (pos : Z) : string := mid s pos (-1).

Fixpoint rtrim_list (l : list ascii) : list ascii :=
  match l with
  | [] => []
  | c :: l' =>
      match rtrim_list l' with
      | [] => if is_space c then [] else [c]
      | r => c :: r
      end
  end.

Fixpoint ltrim (s : string) : string :=
  match s with
  | String c s' => if is_space c then ltrim s' else s
  | EmptyString => s
  end.

(** White space at both ends is ignored by the number conversions. *)
Definition trimmed (s : string) : string :=
  string_of_list_ascii (rtrim_list (list_ascii_of_string (ltrim s))).

(** Signed conversion with limits [lo..hi]: the whole trimmed text must be
    one number; [None] is [ok = false]. *)
Definition to_signed (lo hi : Z) (s : string) (base : Z) : option Z :=
  let t := trimmed s in
  match Scan.number base t with
  | Some r =>
      let v := if Scan.neg r then - Scan.mag r else Scan.mag r in
      if (Scan.used r =? String.length t)%nat && (lo <=? v) && (v <=? hi)
      then Some v else None
  | None => None
  end.

(** [s.toInt(&ok)] (base 10). *)
Definition toInt (s : string) : option Z := to_signed INT_MIN INT_MAX s 10.

(** [s.toLong(&ok, base)]. *)
Definition toLong_ok (s : string) (base : Z) : option Z :=
  to_signed LONG_MIN LONG_MAX s base.

(** [s.toLong()]: base 10, no [ok]; 0 when the conversion fails. *)
Definition toLong (s : string) : Z :=
  match toLong_ok s 10 with Some v => v | None => 0 end.

(** [s.toULong(&ok, base)]: a minus sign is refused. *)
Definition toULong (s : string) (base : Z) : option Z :=
  let t := trimmed s in
  match Scan.number base t with
  | Some r =>
      if (Scan.used r =? String.length t)%nat && negb (Scan.neg r)
         && (Scan.mag r <=? ULONG_MAX)
      then Some (Scan.mag r) else None
  | None => None
  end.

End Qt.

(** ** Runs that may stop the process *)

Inductive stream : Type := Cout | Cerr.

(** How a piece of the program ends: it returns, it prints [msg] on a stream
    and calls [exit(status)], or a C++ exception leaves it uncaught. *)
Inductive outcome (A : Type) : Type :=
| Done (a : A)
| Exit (status : Z) (to : stream) (msg : string)
| Uncaught (e : Std.exn).

Arguments Done {A} a.
Arguments Exit {A} status to msg.
Arguments Uncaught {A} e.

(** A computation over a mutable object of type [S]. *)
Definition M (S A : Type) : Type := S -> S * outcome A.

Definition ret {S A} (a : A) : M S A := fun s => (s, Done a).

Definition bind {S A B} (m : M S A) (k : A -> M S B) : M S B :=
  fun s =>
    match m s with
    | (s', Done a) => k a s'
    | (s', Exit st to msg) => (s', Exit st to msg)
    | (s', Uncaught e) => (s', Uncaught e)
    end.

Notation "x <- m ;; k" := (bind m (fun x => k))
  (at level 61, m at next level, right associativity).
Notation "m ;; k" := (bind m (fun _ => k))
  (at level 61, right associativity).

Definition get {S} : M S S := fun s => (s, Done s).
Definition modify {S} (f : S -> S) : M S unit := fun s => (f s, Done tt).

(** [std::cerr << msg << std::endl; exit(1);] *)
Definition fatal {S A} (to : stream) (msg : string) : M S A :=
  fun s => (s, Exit 1 to msg).

Definition throw {S A} (e : Std.exn) : M S A := fun s => (s, Uncaught e).

(** A loop over the elements of a list, in order. *)
Fixpoint for_each {S A} (l : list A) (body : A -> M S unit) : M S unit :=
  match l with
  | [] => ret tt
  | x :: l' => body x ;; for_each l' body
  end.

Definition when {S} (b : bool) (m : M S unit) : M S unit :=
  if b then m else ret tt.

(** Runs [m] on a part of a larger object. *)
Definition zoom {S T A} (proj : S -> T) (upd : T -> S -> S) (m : M T A)
  : M S A :=
  fun s => let '(t, r) := m (proj s) in (upd t s, r).

(** [l.at(i)] for an index the caller has checked. *)
Definition at_ (l : list string) (i : nat) : string := nth i l "".

(** First character of a string the caller has checked to be non-empty. *)
Definition at0 (s : string) : ascii :=
  match s with String c _ => c | EmptyString => zero end.

(** ** Cache configuration *)

(** Modelled from the spec: the class [MachineConfigCache] is declared in a
    header outside this file.  CacheConfig holds [enabled: bool], a
    replacement policy among Random, LRU, LFU, a write policy among
    WriteBack, WriteThroughNoAlloc, WriteThroughAlloc, and [sets],
    [blocksPerSet], [associativity] of type [uint]; each setter stores its
    argument in its field. *)
Inductive ReplacementPolicy : Type := RP_RAND | RP_LRU | RP_LFU.
Inductive WritePolicy : Type := WP_THROUGH_NOALLOC | WP_THROUGH_ALLOC | WP_BACK.

Record MachineConfigCache : Type := mkCache {
  enabled : bool;
  sets : Z;
  blocks : Z;
  associativity : Z;
  replacement_policy : ReplacementPolicy;
  write_policy : WritePolicy
}.

Definition set_enabled (v : bool) : M MachineConfigCache unit :=
  modify (fun c => mkCache v (sets c) (blocks c) (associativity c)
                           (replacement_policy c) (write_policy c)).
(** The setters of the three dimensions take an [unsigned]. *)
Definition set_sets (v : Z) : M MachineConfigCache unit :=
  modify (fun c => mkCache (enabled c) (to_uint32 v) (blocks c)
                           (associativity c) (replacement_policy c)
                           (write_policy c)).
Definition set_blocks (v : Z) : M MachineConfigCache unit :=
  modify (fun c => mkCache (enabled c) (sets c) (to_uint32 v)
                           (associativity c) (replacement_policy c)
                           (write_policy c)).
Definition set_associativity (v : Z) : M MachineConfigCache unit :=
  modify (fun c => mkCache (enabled c) (sets c) (blocks c) (to_uint32 v)
                           (replacement_policy c) (write_policy c)).
Definition set_replacement_policy (v : ReplacementPolicy)
  : M MachineConfigCache unit :=
  modify (fun c => mkCache (enabled c) (sets c) (blocks c) (associativity c)
                           v (write_policy c)).
Definition set_write_policy (v : WritePolicy) : M MachineConfigCache unit :=
  modify (fun c => mkCache (enabled c) (sets c) (blocks c) (associativity c)
                           (replacement_policy c) v).

Definition msg_parameters (which : string) : string :=
  "Parameters for " ++ which ++ " cache incorrect (correct lru,4,2,2,wb).".
Definition msg_policy (which : string) : string :=
  "Policy for " ++ which ++ " cache is incorrect.".
Definition msg_zero (which : string) : string :=
  "Parameters for " ++ which ++ " cache cannot have zero component.".
Definition msg_write_policy (which : string) : string :=
  "Write policy for " ++ which
  ++ " cache is incorrect (correct wb/wt/wtna/wta).".

(** The replacement-policy word, when the first piece does not start with a
    digit; the pieces that remain. *)
Definition cache_policy (pieces : list string) (which : string)
  : M MachineConfigCache (list string) :=
  if negb (Qt.isDigit (at0 (at_ pieces 0))) then
    (if (Qt.toLower (at_ pieces 0) =? "random")%string then
       set_replacement_policy RP_RAND
     else if (Qt.toLower (at_ pieces 0) =? "lru")%string then
       set_replacement_policy RP_LRU
     else if (Qt.toLower (at_ pieces 0) =? "lfu")%string then
       set_replacement_policy RP_LFU
     else fatal Cerr (msg_policy which)) ;;
    ret (tl pieces)
  else ret pieces.

Definition cache_write_policy (pieces : list string) (which : string)
  : M MachineConfigCache unit :=
  if (3 <? length pieces)%nat then
    if (Qt.toLower (at_ pieces 3) =? "wb")%string then
      set_write_policy WP_BACK
    else if ((Qt.toLower (at_ pieces 3) =? "wt")
             || (Qt.toLower (at_ pieces 3) =? "wtna"))%string then
      set_write_policy WP_THROUGH_NOALLOC
    else if (Qt.toLower (at_ pieces 3) =? "wta")%string then
      set_write_policy WP_THROUGH_ALLOC
    else fatal Cerr (msg_write_policy which)
  else ret tt.

(** The three dimensions, read from the pieces left after the policy word,
    then the write policy. *)
Definition cache_dimensions (pieces : list string) (which : string)
  : M MachineConfigCache unit :=
  if (length pieces <? 3)%nat then fatal Cerr (msg_parameters which)
  else
    set_sets (Qt.toLong (at_ pieces 0)) ;;
    set_blocks (Qt.toLong (at_ pieces 1)) ;;
    set_associativity (Qt.toLong (at_ pieces 2)) ;;
    c <- get ;;
    if (sets c =? 0) || (blocks c =? 0) || (associativity c =? 0) then
      fatal Cerr (msg_zero which)
    else cache_write_policy pieces which.

Definition configure_cache (cachearg : list string) (which : string)
  : M MachineConfigCache unit :=
  if (length cachearg <? 1)%nat then ret tt
  else
    set_enabled true ;;
    let pieces := Qt.split (at_ cachearg (length cachearg - 1)) in
    if (length pieces <? 3)%nat then fatal Cerr (msg_parameters which)
    else if (String.length (at_ pieces 0) <? 1)%nat then
      fatal Cerr (msg_policy which)
    else
      pieces <- cache_policy pieces which ;;
      cache_dimensions pieces which.

(** ** Machine configuration *)

(** What [QCommandLineParser] holds after [process]. *)
Record CommandLine : Type := mkCmd {
  positionalArguments : list string;
  isSet : string -> bool;
  values : string -> list string
}.

(** Modelled from the spec: the class [MachineConfig] is declared in a header
    outside this file.  MachineConfig holds the ELF/source path, the
    delay-slot and pipelined switches, [readTime], [writeTime], [burstTime]
    of type [uint], and the data and instruction cache configurations. *)
Record MachineConfig : Type := mkConfig {
  elf : string;
  delay_slot : bool;
  pipelined : bool;
  mem_acc_read : Z;
  mem_acc_write : Z;
  mem_acc_burst : Z;
  cache_data : MachineConfigCache;
  cache_program : MachineConfigCache
}.

Definition set_elf (v : string) : M MachineConfig unit :=
  modify (fun c => mkConfig v (delay_slot c) (pipelined c) (mem_acc_read c)
                            (mem_acc_write c) (mem_acc_burst c)
                            (cache_data c) (cache_program c)).
Definition set_delay_slot (v : bool) : M MachineConfig unit :=
  modify (fun c => mkConfig (elf c) v (pipelined c) (mem_acc_read c)
                            (mem_acc_write c) (mem_acc_burst c)
                            (cache_data c) (cache_program c)).
Definition set_pipelined (v : bool) : M MachineConfig unit :=
  modify (fun c => mkConfig (elf c) (delay_slot c) v (mem_acc_read c)
                            (mem_acc_write c) (mem_acc_burst c)
                            (cache_data c) (cache_program c)).
(** The three access times are [unsigned]. *)
Definition set_memory_access_time_read (v : Z) : M MachineConfig unit :=
  modify (fun c => mkConfig (elf c) (delay_slot c) (pipelined c)
                            (to_uint32 v) (mem_acc_write c) (mem_acc_burst c)
                            (cache_data c) (cache_program c)).
Definition set_memory_access_time_write (v : Z) : M MachineConfig unit :=
  modify (fun c => mkConfig (elf c) (delay_slot c) (pipelined c)
                            (mem_acc_read c) (to_uint32 v) (mem_acc_burst c)
                            (cache_data c) (cache_program c)).
Definition set_memory_access_time_burst (v : Z) : M MachineConfig unit :=
  modify (fun c => mkConfig (elf c) (delay_slot c) (pipelined c)
                            (mem_acc_read c) (mem_acc_write c) (to_uint32 v)
                            (cache_data c) (cache_program c)).

Definition access_cache_data {A} (m : M MachineConfigCache A)
  : M MachineConfig A :=
  zoom cache_data
       (fun t c => mkConfig (elf c) (delay_slot c) (pipelined c)
                            (mem_acc_read c) (mem_acc_write c)
                            (mem_acc_burst c) t (cache_program c)) m.
Definition access_cache_program {A} (m : M MachineConfigCache A)
  : M MachineConfig A :=
  zoom cache_program
       (fun t c => mkConfig (elf c) (delay_slot c) (pipelined c)
                            (mem_acc_read c) (mem_acc_write c)
                            (mem_acc_burst c) (cache_data c) t) m.

Definition configure_machine (p : CommandLine) : M MachineConfig unit :=
  let pa := positionalArguments p in
  if negb (length pa =? 1)%nat then
    fatal Cerr "Single ELF file has to be specified"
  else
    set_elf (at_ pa 0) ;;
    set_delay_slot (negb (isSet p "no-delay-slot")) ;;
    set_pipelined (isSet p "pipelined") ;;
    (let siz := length (values p "read-time") in
     when (1 <=? siz)%nat
       (set_memory_access_time_read
          (Qt.toLong (at_ (values p "read-time") (siz - 1))))) ;;
    (let siz := length (values p "write-time") in
     when (1 <=? siz)%nat
       (set_memory_access_time_write
          (Qt.toLong (at_ (values p "write-time") (siz - 1))))) ;;
    (let siz := length (values p "burst-time") in
     when (1 <=? siz)%nat
       (set_memory_access_time_burst
          (Qt.toLong (at_ (values p "burst-time") (siz - 1))))) ;;
    access_cache_data (configure_cache (values p "d-cache") "data") ;;
    access_cache_program
      (configure_cache (values p "i-cache") "instruction").

(** ** Tracer configuration *)

Inductive TracerCall : Type :=
| tr_fetch | tr_decode | tr_execute | tr_memory | tr_writeback
| tr_reg_pc | tr_reg_gp (i : Z) | tr_reg_lo | tr_reg_hi.

(** The tracer, seen from here: the calls made on it so far ([Tracer] is
    declared in [tracer.h]). *)
Definition Tracer : Type := list TracerCall.

Definition call {C} (c : C) : M (list C) unit :=
  modify (fun l => (l ++ [c])%list).

Definition msg_register (tok : string) : string :=
  "Unknown register number given for trace-gp: " ++ tok.

(** [for (int y = 0; y < 32; y++) tr.reg_gp(y);] *)
Definition trace_all_gp : M Tracer unit :=
  for_each (map Z.of_nat (seq 0 32)) (fun y => call (tr_reg_gp y)).

(** One pass of the loop over the values of [trace-gp]. *)
Definition trace_gp (tok : string) : M Tracer unit :=
  if (tok =? "*")%string then trace_all_gp
  else
    match Qt.toInt tok with
    | Some num =>
        if num <=? 32 then call (tr_reg_gp num)
        else fatal Cout (msg_register tok)
    | None => fatal Cout (msg_register tok)
    end.

Definition configure_tracer (p : CommandLine) : M Tracer unit :=
  when (isSet p "trace-fetch") (call tr_fetch) ;;
  when (isSet p "pipelined")
    (when (isSet p "trace-decode") (call tr_decode) ;;
     when (isSet p "trace-execute") (call tr_execute) ;;
     when (isSet p "trace-memory") (call tr_memory) ;;
     when (isSet p "trace-writeback") (call tr_writeback)) ;;
  when (isSet p "trace-pc") (call tr_reg_pc) ;;
  for_each (values p "trace-gp") trace_gp ;;
  when (isSet p "trace-lo") (call tr_reg_lo) ;;
  when (isSet p "trace-hi") (call tr_reg_hi).

(** ** Reporter configuration *)

Inductive FailReason : Type := FR_I | FR_A | FR_O | FR_J | FailAny.

Inductive ReporterCall : Type :=
| r_regs | r_cache_stats | r_cycles
| r_expect_fail (reason : FailReason)
| r_add_dump_range (start len : Z) (fname : string).

(** The reporter, seen from here: the calls made on it so far ([Reporter]
    is declared in [reporter.h]). *)
Definition Reporter : Type := list ReporterCall.

(** Modelled from the spec: the class [SymbolTable] is declared in a header
    outside this file; it provides [resolve(name) -> Optional<uint32>].
    [name_to_value] returns false where the lookup is [None].  A
    [const SymbolTable *] is an [option SymbolTable]. *)
Definition SymbolTable : Type := string -> option Z.

(** One character of a [fail-match] value. *)
Definition fail_char (c : ascii) : M Reporter unit :=
  reason <- (let l := tolower c in
             if (l =? "i")%char then ret FR_I
             else if (l =? "a")%char then ret FR_A
             else if (l =? "o")%char then ret FR_O
             else if (l =? "j")%char then ret FR_J
             else fatal Cout ("Unknown fail condition: " ++ String c "")) ;;
  call (r_expect_fail reason).

Definition fail_match (v : string) : M Reporter unit :=
  for_each (list_ascii_of_string v) fail_char.

(** Start or length of a range: a name of the symbol table when the text
    does not begin with a digit and there is a table, a number in base 0
    otherwise.  The result is stored in a [std::uint32_t]. *)
Definition range_number (symtab : option SymbolTable) (str : string)
  : option Z :=
  match (1 <=? String.length str)%nat && negb (Qt.isDigit (at0 str)),
        symtab with
  | true, Some name_to_value => option_map to_uint32 (name_to_value str)
  | _, _ => option_map to_uint32 (Qt.toULong str 0)
  end.

Definition msg_range : string := "Range start/length specification error.".

(** One pass of the loop over the values of [dump-range]. *)
Definition dump_range (symtab : option SymbolTable) (range_arg : string)
  : M Reporter unit :=
  let comma1 := Qt.indexOf_comma range_arg 0 in
  if comma1 <? 0 then fatal Cout "Range start missing"
  else
    let comma2 := Qt.indexOf_comma range_arg (comma1 + 1) in
    if comma2 <? 0 then fatal Cout "Range lengt/name missing"
    else
      let ok1 := range_number symtab (Qt.mid range_arg 0 comma1) in
      let ok2 :=
        range_number symtab (Qt.mid range_arg (comma1 + 1)
                                    (comma2 - comma1 - 1)) in
      match ok1, ok2 with
      | Some start, Some len =>
          call (r_add_dump_range start len (Qt.mid_from range_arg (comma2 + 1)))
      | _, _ => fatal Cout msg_range
      end.

Definition configure_reporter (p : CommandLine) (symtab : option SymbolTable)
  : M Reporter unit :=
  when (isSet p "dump-registers") (call r_regs) ;;
  when (isSet p "dump-cache-stats") (call r_cache_stats) ;;
  when (isSet p "dump-cycles") (call r_cycles) ;;
  for_each (values p "fail-match") fail_match ;;
  when (isSet p "expect-fail" && negb (isSet p "fail-match"))
    (call (r_expect_fail FailAny)) ;;
  for_each (values p "dump-range") (dump_range symtab).

(** ** Loading of memory ranges *)

(** The files that can be opened for reading, with their content. *)
Definition FileSystem : Type := string -> option string.

(** The memory, seen from here: the [write_word(addr, val)] calls so far. *)
Definition Memory : Type := list (Z * Z).

Definition write_word (addr val : Z) : M Memory unit := call (addr, val).

Definition blanks : string := String " " (String "009" (String "010" "")).

(** One pass of the [getline] loop: the address the next word goes to comes
    in and goes out. *)
Definition load_line (addr : Z) (line : string) : M Memory Z :=
  let endpos := Std.find_last_not_of blanks line in
  let startpos := Std.find_first_not_of blanks line in
  match endpos, startpos with
  | Some e, Some b =>
      let line := Std.substr line 0 (e + 1) in
      let line := Std.substr_from line b in
      match Std.stoul line 0 with
      | inl (v, idx) =>
          if negb (idx =? String.length line)%nat then
            fatal Cout "cannot parse load range data."
          else
            write_word addr (to_uint32 v) ;;
            ret (to_uint32 (addr + 4))
      | inr e => throw e
      end
  | _, _ => ret addr
  end.

Fixpoint load_lines (addr : Z) (lines : list string) : M Memory unit :=
  match lines with
  | [] => ret tt
  | line :: rest => addr' <- load_line addr line ;; load_lines addr' rest
  end.

(** The lines an [ifstream] opened on [name] delivers; none when the file
    could not be opened. *)
Definition file_lines (fs : FileSystem) (name : string) : list string :=
  match fs name with
  | Some content => Std.getlines content
  | None => []
  end.

(** One pass of the loop over the values of [load-range].  [addr] takes the
    value of [start] before [start] is masked. *)
Definition load_range (fs : FileSystem) (symtab : option SymbolTable)
    (range_arg : string) : M Memory unit :=
  let comma1 := Qt.indexOf_comma range_arg 0 in
  if comma1 <? 0 then fatal Cout "Range start missing"
  else
    match range_number symtab (Qt.mid range_arg 0 comma1) with
    | None => fatal Cout msg_range
    | Some start =>
        let addr := start in
        let lines := file_lines fs (Qt.mid_from range_arg (comma1 + 1)) in
        let start := Z.land start (to_uint32 (Z.lnot 3)) in
        load_lines addr lines
    end.

Definition load_ranges (fs : FileSystem) (symtab : option SymbolTable)
    (ranges : list string) : M Memory unit :=
  for_each ranges (load_range fs symtab).

(** ** Sample inputs *)

Definition nl : string := String "010" "".

(** Modelled from the spec: a cache no flag has configured remains at its
    default, disabled.  The dimensions and policies stand for whatever a
    fresh [MachineConfigCache] holds. *)
Definition fresh_cache : MachineConfigCache :=
  mkCache false 1 1 1 RP_RAND WP_THROUGH_NOALLOC.

(** A file system with one file, [name], holding [content]. *)
Definition one_file (name content : string) : FileSystem :=
  fun n => if (n =? name)%string then Some content else None.

(** The command line [--read-time=5 --read-time=abc prog.elf]. *)
Definition sample_command_line : CommandLine :=
  mkCmd ["prog.elf"] (fun n => (n =? "read-time")%string)
        (fun n => if (n =? "read-time")%string then ["5"; "abc"] else []).

Definition sample_config : MachineConfig :=
  mkConfig "" true false 10 10 0 fresh_cache fresh_cache.

(** ** Vocabulary of the statements *)

(** Whether a text holds a comma. *)
Fixpoint has_comma (s : string) : bool :=
  match s with
  | EmptyString => false
  | String c s' => (c =? ",")%char || has_comma s'
  end.

(** The value of a run of decimal digits, most significant first. *)
Fixpoint decimal_from (acc : Z) (s : string) : Z :=
  match s with
  | EmptyString => acc
  | String c s' => decimal_from (acc * 10 + (code c - 48)) s'
  end.

Definition decimal (s : string) : Z := decimal_from 0 s.

Fixpoint all_digits (s : string) : bool :=
  match s with
  | EmptyString => true
  | String c s' => is_digit c && all_digits s'
  end.

(** A non-empty run of decimal digits. *)
Definition decimal_text (s : string) : bool :=
  (1 <=? String.length s)%nat && all_digits s.

(** The pieces [configure_cache] reads the three dimensions from: those of
    the text, less the first when it does not begin with a digit. *)
Definition geometry_fields (raw : string) : list string :=
  let pieces := Qt.split raw in
  if negb (Qt.isDigit (at0 (at_ pieces 0))) then tl pieces else pieces.

(** The access time a flag leaves: the last value read by [toLong()], or
    the old one when the flag is absent. *)
Definition time_after (p : CommandLine) (name : string) (old : Z) : Z :=
  if (1 <=? length (values p name))%nat
  then to_uint32 (Qt.toLong (at_ (values p name)
                                 (length (values p name) - 1)))
  else old.

(** ** Vocabulary of the further statements *)

(** No character of the text is white space. *)
Fixpoint no_space (s : string) : bool :=
  match s with
  | EmptyString => true
  | String c s' => negb (is_space c) && no_space s'
  end.

(** [m] only adds calls at the end of the log, and each call it adds
    satisfies [Q]. *)
Definition appends {C A : Type} (Q : C -> Prop) (m : M (list C) A) : Prop :=
  forall r, exists w, fst (m r) = (r ++ w)%list /\ Forall Q w.

(** A call that enables the trace of one of the four later stages. *)
Definition later_stage (c : TracerCall) : bool :=
  match c with
  | tr_decode | tr_execute | tr_memory | tr_writeback => true
  | _ => false
  end.

(** Whether the loop over trace-gp lets a token pass. *)
Definition gp_accepts (tok : string) : bool :=
  (tok =? "*")%string
  || match Qt.toInt tok with Some num => num <=? 32 | None => false end.

(** The calls an accepted token stands for. *)
Definition gp_calls (tok : string) : list TracerCall :=
  if (tok =? "*")%string then map tr_reg_gp (map Z.of_nat (seq 0 32))
  else match Qt.toInt tok with Some num => [tr_reg_gp num] | None => [] end.

(** The calls [configure_tracer] makes before it turns to the registers. *)
Definition stage_calls (p : CommandLine) : list TracerCall :=
  ((if isSet p "trace-fetch" then [tr_fetch] else [])
   ++ (if isSet p "pipelined" then
         (if isSet p "trace-decode" then [tr_decode] else [])
         ++ (if isSet p "trace-execute" then [tr_execute] else [])
         ++ (if isSet p "trace-memory" then [tr_memory] else [])
         ++ (if isSet p "trace-writeback" then [tr_writeback] else [])
       else [])
   ++ (if isSet p "trace-pc" then [tr_reg_pc] else []))%list.

(** The calls it makes after the registers. *)
Definition lo_hi_calls (p : CommandLine) : list TracerCall :=
  ((if isSet p "trace-lo" then [tr_reg_lo] else [])
   ++ (if isSet p "trace-hi" then [tr_reg_hi] else []))%list.

(** The trap kind a letter of fail-match stands for, as a table. *)
Definition trap_letter (c : ascii) : option FailReason :=
  match c with
  | "i" | "I" => Some FR_I
  | "a" | "A" => Some FR_A
  | "o" | "O" => Some FR_O
  | "j" | "J" => Some FR_J
  | _ => None
  end%char.

(** The trap kinds of the letters before the first one outside the table. *)
Fixpoint trap_reasons (s : string) : list FailReason :=
  match s with
  | EmptyString => []
  | String c s' =>
      match trap_letter c with
      | Some fr => fr :: trap_reasons s'
      | None => []
      end
  end.

(** The first letter outside the table, if any. *)
Fixpoint first_unknown (s : string) : option ascii :=
  match s with
  | EmptyString => None
  | String c s' =>
      match trap_letter c with
      | Some _ => first_unknown s'
      | None => Some c
      end
  end.

(** Every character of the text is a digit of [base]. *)
Fixpoint all_in (base : Z) (s : string) : bool :=
  match s with
  | EmptyString => true
  | String c s' =>
      match digit_in base c with
      | Some _ => all_in base s'
      | None => false
      end
  end.

(** The value of a run of digits of [base], most significant first,
    continuing from [acc]. *)
Fixpoint value_in (base acc : Z) (s : string) : Z :=
  match s with
  | EmptyString => acc
  | String c s' =>
      match digit_in base c with
      | Some d => value_in base (acc * base + d) s'
      | None => acc
      end
  end.

(** A letter or an underscore, as a symbol name begins. *)
Definition is_name_start (c : ascii) : bool :=
  is_lower c || is_upper c || (c =? "_")%char.

(** A line made of spaces, tabs and newlines only. *)
Fixpoint all_blank (line : string) : bool :=
  match line with
  | EmptyString => true
  | String c line' => Std.in_set blanks c && all_blank line'
  end.

(** The number a line stands for, when the loop of [load_ranges] accepts the
    line: the line has a non-blank part and [stoul] reads all of it. *)
Definition line_value (line : string) : option Z :=
  match Std.find_last_not_of blanks line,
        Std.find_first_not_of blanks line with
  | Some e, Some b =>
      let text := Std.substr_from (Std.substr line 0 (e + 1)) b in
      match Std.stoul text 0 with
      | inl (v, idx) =>
          if (idx =? String.length text)%nat then Some v else None
      | inr _ => None
      end
  | _, _ => None
  end.

(** The words of [vs] at successive word addresses from [addr], the
    [k]-th four bytes after the one before, modulo [2^32]. *)
Fixpoint words_at (addr k : Z) (vs : list Z) : list (Z * Z) :=
  match vs with
  | [] => []
  | v :: vs' =>
      (to_uint32 (addr + 4 * k), to_uint32 v) :: words_at addr (k + 1) vs'
  end.

(** The text holds no newline. *)
Fixpoint no_newline (s : string) : bool :=
  match s with
  | EmptyString => true
  | String c s' => negb (c =? "010")%char && no_newline s'
  end.

(** A file written line by line, each line closed by a newline. *)
Fixpoint unlines (lines : list string) : string :=
  match lines with
  | [] => ""
  | l :: lines' => l ++ nl ++ unlines lines'
  end.

(** The dimension of rank [i] of a cache: sets, blocks, associativity. *)
Definition dimension (c : MachineConfigCache) (i : nat) : Z :=
  match i with
  | O => sets c
  | S O => blocks c
  | _ => associativity c
  end.






(** Unfolds the plumbing of [M]. *)
Ltac run :=
  unfold bind, ret, fatal, modify, get, when, zoom in *; cbn beta iota.

(** * Properties *)

(** ** Load ranges: where the words go *)

(** C1.  The loader does not write at the aligned address: [addr] is copied
    from [start] before [start] is masked with [~3], and the words go to
    [addr], [addr + 4], ... whatever the low bits of [addr].  With the range
    [5,f] and a file of two words the words go to addresses 5 and 9, while
    [5 & ~3] is 4. *)
Theorem load_range_writes_at_unaligned_start :
  (forall (addr : Z) (m : Memory),
      load_lines addr ["7"; "8"] m
      = ((m ++ [(addr, 7); (to_uint32 (addr + 4), 8)])%list, Done tt))
  /\ load_ranges (one_file "f" ("7" ++ nl ++ "8" ++ nl)) None ["5,f"] []
     = ([(5, 7); (9, 8)], Done tt)
  /\ Z.land 5 (to_uint32 (Z.lnot 3)) = 4.
Proof.
  split; [|split; vm_compute; reflexivity].
  intros addr m.
  change [(addr, 7); (to_uint32 (addr + 4), 8)]
    with ([(addr, 7)] ++ [(to_uint32 (addr + 4), 8)])%list.
  rewrite app_assoc. reflexivity.
Qed.

(** ** Register tokens of trace-gp *)

(** What the loop accepts: any [int] not above 32. *)
Lemma trace_gp_accepts (tok : string) (r : Tracer) :
  tok <> "*" ->
  (snd (trace_gp tok r) = Done tt
   <-> exists num, Qt.toInt tok = Some num /\ num <= 32).
Proof.
  intros Hstar. unfold trace_gp.
  apply String.eqb_neq in Hstar. rewrite Hstar.
  destruct (Qt.toInt tok) as [num|].
  - destruct (Z.leb_spec num 32) as [Hle|Hgt]; simpl.
    + split; [intros _; exists num; split; [reflexivity | exact Hle]
             | reflexivity].
    + split; [discriminate|].
      intros (n & Hn & Hle). injection Hn as <-. lia.
  - simpl. split; [discriminate|]. intros (n & Hn & _). discriminate Hn.
Qed.

(** C2.  The bound on a register token is one-sided: [-1] converts to an
    [int] not above 32, so it is accepted and handed to the tracer.  Token
    [32] is accepted and token [33] is refused, as is a word. *)
Theorem trace_gp_accepts_negative :
  trace_gp "-1" [] = ([tr_reg_gp (-1)], Done tt)
  /\ trace_gp "32" [] = ([tr_reg_gp 32], Done tt)
  /\ trace_gp "33" [] = ([], Exit 1 Cout (msg_register "33"))
  /\ trace_gp "pc" [] = ([], Exit 1 Cout (msg_register "pc")).
Proof. repeat split; vm_compute; reflexivity. Qed.

(** ** Load ranges: a line that is no number *)

(** A line on which [stoul] throws ends the run there, the memory as it
    was. *)
Lemma load_line_throws (addr : Z) (line : string) (e b : nat) (x : Std.exn)
    (m : Memory) :
  Std.find_last_not_of blanks line = Some e ->
  Std.find_first_not_of blanks line = Some b ->
  Std.stoul (Std.substr_from (Std.substr line 0 (e + 1)) b) 0 = inr x ->
  load_line addr line m = (m, Uncaught x).
Proof.
  intros He Hb Hx. unfold load_line. rewrite He, Hb. cbv zeta.
  rewrite Hx. reflexivity.
Qed.

(** C6.  A line without any digit makes [stoul] throw: the run ends with an
    uncaught [std::invalid_argument], not with the diagnostic.  The word of
    the line before is written, nothing after.  A line with a numeric prefix
    does reach the diagnostic. *)
Theorem load_range_word_line_throws :
  load_ranges (one_file "f" ("1" ++ nl ++ "abc" ++ nl ++ "3" ++ nl)) None
              ["8,f"] []
  = ([(8, 1)], Uncaught Std.invalid_argument)
  /\ load_ranges (one_file "f" ("1" ++ nl ++ "2abc" ++ nl ++ "3" ++ nl)) None
                 ["8,f"] []
     = ([(8, 1)], Exit 1 Cout "cannot parse load range data.").
Proof. split; vm_compute; reflexivity. Qed.

(** ** Texts, commas and positions *)

Section Strings.

Lemma strlen_app (a b : string) :
  String.length (a ++ b) = (String.length a + String.length b)%nat.
Proof. induction a as [|c a IH]; simpl; [reflexivity | now rewrite IH]. Qed.

Lemma take_app (a r : string) : Std.take (String.length a) (a ++ r) = a.
Proof. induction a as [|c a IH]; simpl; [now destruct r | now rewrite IH]. Qed.

Lemma drop_app (a r : string) : Std.drop (String.length a) (a ++ r) = r.
Proof. induction a as [|c a IH]; simpl; [reflexivity | exact IH]. Qed.

Lemma drop_app_plus (a r : string) (k : nat) :
  Std.drop (String.length a + k) (a ++ r) = Std.drop k r.
Proof. induction a as [|c a IH]; simpl; [reflexivity | exact IH]. Qed.

Lemma indexOf_comma_first (a r : string) :
  has_comma a = false ->
  Qt.indexOf_comma_nat (a ++ String "," r) 0 = Some (String.length a).
Proof.
  induction a as [|c a IH]; simpl; intros H; [reflexivity|].
  apply orb_false_elim in H as [Hc Ha].
  rewrite Hc, (IH Ha). reflexivity.
Qed.

Lemma indexOf_comma_skip (a r : string) (k : nat) :
  Qt.indexOf_comma_nat (a ++ r) (String.length a + k)
  = option_map (Nat.add (String.length a)) (Qt.indexOf_comma_nat r k).
Proof.
  induction a as [|c a IH]; simpl.
  - now destruct (Qt.indexOf_comma_nat r k).
  - rewrite IH. now destruct (Qt.indexOf_comma_nat r k).
Qed.

Lemma app_comma (a r : string) : (a ++ ",") ++ r = a ++ String "," r.
Proof. induction a as [|c a IH]; simpl; [reflexivity | f_equal; exact IH]. Qed.

End Strings.

(** ** Dump ranges *)

Lemma dump_range_positions (a b c : string) :
  has_comma a = false -> has_comma b = false ->
  let raw := a ++ "," ++ b ++ "," ++ c in
  let comma1 := Z.of_nat (String.length a) in
  let comma2 := Z.of_nat (String.length a + 1 + String.length b) in
  Qt.indexOf_comma raw 0 = comma1
  /\ Qt.indexOf_comma raw (comma1 + 1) = comma2
  /\ Qt.mid raw 0 comma1 = a
  /\ Qt.mid raw (comma1 + 1) (comma2 - comma1 - 1) = b
  /\ Qt.mid_from raw (comma2 + 1) = c.
Proof.
  intros Ha Hb raw comma1 comma2.
  assert (Hraw : raw = (a ++ ",") ++ b ++ String "," c).
  { unfold raw. symmetry. apply app_comma. }
  assert (Hlen : String.length (a ++ ",") = (String.length a + 1)%nat).
  { rewrite strlen_app. reflexivity. }
  assert (Hto : Z.to_nat (comma1 + 1) = String.length (a ++ ",")).
  { rewrite Hlen. unfold comma1. lia. }
  unfold Qt.mid_from, Qt.mid, Qt.indexOf_comma.
  repeat split.
  - change (Z.to_nat 0) with O.
    unfold raw.
    change (a ++ "," ++ b ++ "," ++ c) with (a ++ String "," (b ++ "," ++ c)).
    now rewrite (indexOf_comma_first a _ Ha).
  - rewrite Hto, Hraw, <- (Nat.add_0_r (String.length (a ++ ","))).
    rewrite indexOf_comma_skip, (indexOf_comma_first b c Hb).
    simpl option_map. rewrite Hlen. reflexivity.
  - destruct (comma1 <? 0) eqn:E; [unfold comma1 in E; lia|].
    unfold comma1. rewrite Nat2Z.id. simpl Std.drop. unfold raw.
    apply take_app.
  - replace (comma2 - comma1 - 1) with (Z.of_nat (String.length b))
      by (unfold comma1, comma2; lia).
    destruct (Z.of_nat (String.length b) <? 0) eqn:E; [lia|].
    rewrite Nat2Z.id, Hto, Hraw, drop_app. apply take_app.
  - simpl (-1 <? 0).
    replace (Z.to_nat (comma2 + 1))
      with (String.length (a ++ ",") + String.length (b ++ ","))%nat
      by (rewrite Hlen, strlen_app; unfold comma2; simpl String.length; lia).
    rewrite Hraw, drop_app_plus.
    rewrite <- (app_comma b c). apply drop_app.
Qed.

(** C5.  A dump range is cut at its first two commas only: with a start
    and a length free of commas, the file name is everything after the second
    comma, commas included, and that is what the reporter receives.  The
    range [0x1000,256,dump.bin] gives start 4096, length 256 and the name
    [dump.bin]. *)
Theorem dump_range_cuts_at_first_two_commas :
  (forall (symtab : option SymbolTable) (a b c : string) (start len : Z)
          (r : Reporter),
      has_comma a = false -> has_comma b = false ->
      range_number symtab a = Some start ->
      range_number symtab b = Some len ->
      dump_range symtab (a ++ "," ++ b ++ "," ++ c) r
      = ((r ++ [r_add_dump_range start len c])%list, Done tt))
  /\ dump_range None "0x1000,256,dump.bin" []
     = ([r_add_dump_range 4096 256 "dump.bin"], Done tt).
Proof.
  split; [|vm_compute; reflexivity].
  intros symtab a b c start len r Ha Hb Hs Hl.
  destruct (dump_range_positions a b c Ha Hb) as (H1 & H2 & Ma & Mb & Mc).
  unfold dump_range. cbv zeta.
  rewrite H1, H2, Ma, Mb, Mc, Hs, Hl.
  destruct (Z.ltb_spec (Z.of_nat (String.length a)) 0) as [E1|E1]; [lia|].
  destruct (Z.ltb_spec (Z.of_nat (String.length a + 1 + String.length b)) 0)
    as [E2|E2]; [lia|].
  reflexivity.
Qed.

Lemma dump_range_cuts_at_first_two_commas_witness :
  dump_range None ("0x10" ++ "," ++ "0100" ++ "," ++ "out,1.bin") [r_regs]
  = ([r_regs; r_add_dump_range 16 64 "out,1.bin"], Done tt).
Proof.
  apply (proj1 dump_range_cuts_at_first_two_commas
               None "0x10" "0100" "out,1.bin" 16 64 [r_regs]);
    reflexivity.
Defined.

(** ** Cache flags *)

Lemma at_last (l : list string) (x : string) :
  at_ (l ++ [x]) (length (l ++ [x]) - 1) = x.
Proof.
  unfold at_. rewrite length_app. simpl length.
  rewrite app_nth2 by lia.
  replace (length l + 1 - 1 - length l)%nat with O by lia. reflexivity.
Qed.

(** Only the last occurrence of a cache flag is read. *)
Lemma configure_cache_last (args : list string) (x which : string) :
  configure_cache (args ++ [x]) which = configure_cache [x] which.
Proof.
  unfold configure_cache. rewrite at_last.
  replace (length (args ++ [x]) <? 1)%nat with false.
  - reflexivity.
  - symmetry. apply Nat.ltb_ge. rewrite length_app. simpl. lia.
Qed.

(** The policy stage leaves the pieces [geometry_fields] names and touches
    the replacement policy only, or stops with the policy diagnostic. *)
Lemma cache_policy_cases (raw which : string) (c : MachineConfigCache) :
  (exists rp,
      cache_policy (Qt.split raw) which c
      = (mkCache (enabled c) (sets c) (blocks c) (associativity c) rp
                 (write_policy c), Done (geometry_fields raw)))
  \/ cache_policy (Qt.split raw) which c
     = (c, Exit 1 Cerr (msg_policy which)).
Proof.
  unfold cache_policy, geometry_fields.
  destruct (negb (Qt.isDigit (at0 (at_ (Qt.split raw) 0)))).
  - destruct (Qt.toLower (at_ (Qt.split raw) 0) =? "random")%string;
      [left; eexists; reflexivity|].
    destruct (Qt.toLower (at_ (Qt.split raw) 0) =? "lru")%string;
      [left; eexists; reflexivity|].
    destruct (Qt.toLower (at_ (Qt.split raw) 0) =? "lfu")%string;
      [left; eexists; reflexivity|].
    right. reflexivity.
  - left. exists (replacement_policy c). destruct c; reflexivity.
Qed.

Lemma cache_write_policy_enabled (pieces : list string) (which : string)
    (c : MachineConfigCache) :
  enabled (fst (cache_write_policy pieces which c)) = enabled c.
Proof.
  unfold cache_write_policy.
  repeat match goal with
         | |- context [if ?b then _ else _] => destruct b
         end; reflexivity.
Qed.

Lemma cache_dimensions_enabled (pieces : list string) (which : string)
    (c : MachineConfigCache) :
  enabled (fst (cache_dimensions pieces which c)) = enabled c.
Proof.
  unfold cache_dimensions.
  destruct (length pieces <? 3)%nat; [reflexivity|].
  unfold set_sets, set_blocks, set_associativity. run.
  match goal with
  | |- context [if ?b then _ else _] => destruct b
  end; [reflexivity|].
  rewrite cache_write_policy_enabled. reflexivity.
Qed.

Lemma nth_in_firstn3 (x : string) (l : list string) :
  In x (firstn 3 l) -> at_ l 0 = x \/ at_ l 1 = x \/ at_ l 2 = x.
Proof.
  unfold at_.
  destruct l as [|a [|b [|d l]]]; simpl; intuition (subst; auto).
Qed.

(** A dimension written [0] stops the dimension stage. *)
Lemma cache_dimensions_zero (pieces : list string) (which : string)
    (c : MachineConfigCache) :
  In "0" (firstn 3 pieces) ->
  exists msg, snd (cache_dimensions pieces which c) = Exit 1 Cerr msg.
Proof.
  intros H. apply nth_in_firstn3 in H.
  unfold cache_dimensions.
  destruct (length pieces <? 3)%nat; [eexists; reflexivity|].
  unfold set_sets, set_blocks, set_associativity. run.
  cbn [sets blocks associativity].
  exists (msg_zero which).
  destruct H as [H | [H | H]]; rewrite H;
    change (to_uint32 (Qt.toLong "0")) with 0;
    rewrite ?Z.eqb_refl, ?orb_true_r; reflexivity.
Qed.




(** C4, as the code has it.  The object is marked enabled on entry and the
    dimensions are stored before they are tested: at the exit the object
    differs from the one that came in. *)
Lemma cache_zero_dimension_changes_object :
  configure_cache ["lru,0,2,2"] "data" fresh_cache
  = (mkCache true 0 2 2 RP_LRU WP_THROUGH_NOALLOC,
     Exit 1 Cerr (msg_zero "data"))
  /\ enabled (fst (configure_cache ["lru,0,2,2"] "data" fresh_cache)) = true
  /\ fst (configure_cache ["lru,0,2,2"] "data" fresh_cache) <> fresh_cache.
Proof. repeat split; vm_compute; try reflexivity; discriminate. Qed.

(** C4, amended.  Whenever one of the three dimension fields of the last
    cache text is [0], the run stops with a diagnostic and exit status 1;
    the object is marked enabled by then. *)
Theorem cache_zero_dimension_is_fatal (args : list string) (raw which : string)
    (c : MachineConfigCache) :
  In "0" (firstn 3 (geometry_fields raw)) ->
  exists c' msg,
    configure_cache (args ++ [raw]) which c = (c', Exit 1 Cerr msg)
    /\ enabled c' = true.
Proof.
  intros H.
  rewrite configure_cache_last. unfold configure_cache.
  change (at_ [raw] (length [raw] - 1)) with raw.
  change (length [raw] <? 1)%nat with false.
  unfold set_enabled. run.
  destruct (length (Qt.split raw) <? 3)%nat;
    [do 2 eexists; split; reflexivity|].
  destruct (String.length (at_ (Qt.split raw) 0) <? 1)%nat;
    [do 2 eexists; split; reflexivity|].
  match goal with
  | |- context [cache_policy _ _ ?c1] =>
      destruct (cache_policy_cases raw which c1) as [[rp E] | E]; rewrite E
  end; [|do 2 eexists; split; reflexivity].
  match goal with
  | |- context [cache_dimensions ?f ?w ?c2] =>
      destruct (cache_dimensions_zero f w c2 H) as [msg Hm];
      pose proof (cache_dimensions_enabled f w c2) as He;
      destruct (cache_dimensions f w c2) as [c' o]
  end.
  simpl in Hm, He. subst o. exists c', msg. split; [reflexivity | exact He].
Qed.

Lemma cache_zero_dimension_is_fatal_witness :
  exists c' msg,
    configure_cache (["lru,4,2,2"] ++ ["4,0,2,wb"]) "instruction" fresh_cache
    = (c', Exit 1 Cerr msg)
    /\ enabled c' = true.
Proof.
  apply (cache_zero_dimension_is_fatal ["lru,4,2,2"] "4,0,2,wb" "instruction"
                                       fresh_cache).
  simpl. right. left. reflexivity.
Defined.

(** ** Decimal reading of the cache dimensions *)

Section Decimal.

Lemma digit_not_space (c : ascii) : is_digit c = true -> is_space c = false.
Proof. unfold is_digit, is_space. lia. Qed.

Lemma digit_not_comma (c : ascii) :
  is_digit c = true -> (c =? ",")%char = false.
Proof.
  intros H. destruct (Ascii.eqb_spec c ","); [subst; discriminate H|].
  reflexivity.
Qed.

Lemma digit_in_10 (c : ascii) :
  is_digit c = true -> digit_in 10 c = Some (code c - 48).
Proof.
  intros H. unfold digit_in, digit_value. rewrite H.
  unfold is_digit in H.
  destruct (Z.ltb_spec (code c - 48) 10); [reflexivity | lia].
Qed.

Lemma digit_no_sign (c : ascii) (s : string) (n : nat) :
  is_digit c = true -> Scan.sign (String c s) n = (false, String c s, n).
Proof.
  intros H.
  destruct c as [[] [] [] [] [] [] [] []];
    first [discriminate H | reflexivity].
Qed.

Lemma digits_decimal (s : string) :
  all_digits s = true ->
  forall acc n,
    Scan.digits 10 s acc n = (decimal_from acc s, (n + String.length s)%nat).
Proof.
  induction s as [|c s IH]; simpl; intros H acc n.
  - f_equal. lia.
  - apply andb_prop in H as [Hc Hs].
    rewrite (digit_in_10 c Hc), (IH Hs). f_equal. lia.
Qed.

Lemma decimal_from_nonneg (s : string) :
  all_digits s = true -> forall acc, 0 <= acc -> 0 <= decimal_from acc s.
Proof.
  induction s as [|c s IH]; simpl; intros H acc Hacc; [exact Hacc|].
  apply andb_prop in H as [Hc Hs]. apply (IH Hs).
  unfold is_digit in Hc. lia.
Qed.

Lemma rtrim_digits (s : string) :
  all_digits s = true ->
  Qt.rtrim_list (list_ascii_of_string s) = list_ascii_of_string s.
Proof.
  induction s as [|c s IH]; simpl; intros H; [reflexivity|].
  apply andb_prop in H as [Hc Hs]. rewrite (IH Hs).
  destruct (list_ascii_of_string s); [|reflexivity].
  now rewrite (digit_not_space c Hc).
Qed.

Lemma trimmed_digits (s : string) :
  all_digits s = true -> Qt.trimmed s = s.
Proof.
  intros H. unfold Qt.trimmed.
  assert (Hl : Qt.ltrim s = s).
  { destruct s as [|c s]; [reflexivity|]. simpl in *.
    apply andb_prop in H as [Hc _]. now rewrite (digit_not_space c Hc). }
  rewrite Hl, (rtrim_digits s H). apply string_of_list_ascii_of_string.
Qed.

(** On a run of decimal digits [toLong()] gives the decimal value, a
    leading zero included. *)
Lemma toLong_decimal (s : string) :
  decimal_text s = true -> decimal s <= LONG_MAX ->
  Qt.toLong s = decimal s.
Proof.
  unfold decimal_text. intros H Hmax.
  apply andb_prop in H as [Hne Hd].
  unfold Qt.toLong, Qt.toLong_ok, Qt.to_signed.
  rewrite (trimmed_digits s Hd).
  destruct s as [|c s]; [discriminate Hne|].
  pose proof Hd as Hd'. simpl in Hd'. apply andb_prop in Hd' as [Hc Hs].
  unfold Scan.number.
  cbn [Scan.skip_space]. rewrite (digit_not_space c Hc).
  rewrite (digit_no_sign c s 0 Hc).
  change (Scan.detect 10 (String c s) 0) with (10, String c s, O).
  cbv zeta beta iota.
  rewrite (digits_decimal (String c s) Hd 0 0).
  cbn [String.length Nat.add Scan.neg Scan.mag Scan.used].
  rewrite Nat.eqb_refl.
  pose proof (decimal_from_nonneg (String c s) Hd 0 (Z.le_refl 0)) as Hpos.
  fold (decimal (String c s)) in *.
  destruct (Z.leb_spec LONG_MIN (decimal (String c s)));
    [|unfold LONG_MIN in *; lia].
  destruct (Z.leb_spec (decimal (String c s)) LONG_MAX); [reflexivity | lia].
Qed.

Lemma digits_no_comma (s : string) :
  all_digits s = true -> has_comma s = false.
Proof.
  induction s as [|c s IH]; simpl; intros H; [reflexivity|].
  apply andb_prop in H as [Hc Hs].
  now rewrite (digit_not_comma c Hc), (IH Hs).
Qed.

Lemma split_no_comma (s : string) : has_comma s = false -> Qt.split s = [s].
Proof.
  induction s as [|c s IH]; simpl; intros H; [reflexivity|].
  apply orb_false_elim in H as [Hc Hs]. now rewrite Hc, (IH Hs).
Qed.

Lemma split_at_comma (s r : string) :
  has_comma s = false -> Qt.split (s ++ String "," r) = s :: Qt.split r.
Proof.
  induction s as [|c s IH]; simpl; intros H; [reflexivity|].
  apply orb_false_elim in H as [Hc Hs]. now rewrite Hc, (IH Hs).
Qed.

(** A text beginning with [0x] or [0X] is no number for [toLong()]. *)
Lemma toLong_hex_prefix (x : ascii) (t : string) :
  x = "x"%char \/ x = "X"%char -> Qt.toLong (String "0" (String x t)) = 0.
Proof.
  intros Hx. unfold Qt.toLong, Qt.toLong_ok, Qt.to_signed, Qt.trimmed.
  assert (Ht : exists t',
             string_of_list_ascii
               (Qt.rtrim_list
                  (list_ascii_of_string (Qt.ltrim (String "0" (String x t)))))
             = String "0" (String x t')).
  { change (Qt.ltrim (String "0" (String x t))) with (String "0" (String x t)).
    cbn [list_ascii_of_string Qt.rtrim_list].
    destruct (Qt.rtrim_list (list_ascii_of_string t)) as [|y r].
    - exists "". destruct Hx; subst x; reflexivity.
    - exists (string_of_list_ascii (y :: r)). reflexivity. }
  destruct Ht as [t' Ht]. rewrite Ht.
  destruct Hx; subst x; reflexivity.
Qed.

End Decimal.

(** C3, as the code has it.  The dimensions are read by [toLong()], base
    10: [0x4] is no number there and reads as 0, so the text [lru,0x4,2,2]
    stops with the zero-component diagnostic. *)
Lemma cache_hex_dimension_is_fatal :
  configure_cache ["lru,0x4,2,2"] "data" fresh_cache
  = (mkCache true 0 2 2 RP_LRU WP_THROUGH_NOALLOC,
     Exit 1 Cerr (msg_zero "data"))
  /\ Qt.toLong "0x4" = 0.
Proof. split; vm_compute; reflexivity. Qed.

(** ** Repeated flags *)


(** ** Memory access times *)

Lemma toLong_failed (v : string) : Qt.toLong_ok v 10 = None -> Qt.toLong v = 0.
Proof. unfold Qt.toLong. now intros ->. Qed.

(** Configuring a cache leaves the access times alone. *)
Lemma access_cache_data_times {A} (m : M MachineConfigCache A)
    (c : MachineConfig) :
  let c' := fst (access_cache_data m c) in
  mem_acc_read c' = mem_acc_read c /\ mem_acc_write c' = mem_acc_write c
  /\ mem_acc_burst c' = mem_acc_burst c.
Proof.
  unfold access_cache_data, zoom. destruct (m (cache_data c)).
  repeat split.
Qed.

Lemma access_cache_program_times {A} (m : M MachineConfigCache A)
    (c : MachineConfig) :
  let c' := fst (access_cache_program m c) in
  mem_acc_read c' = mem_acc_read c /\ mem_acc_write c' = mem_acc_write c
  /\ mem_acc_burst c' = mem_acc_burst c.
Proof.
  unfold access_cache_program, zoom. destruct (m (cache_program c)).
  repeat split.
Qed.

(** With exactly one file named, [configure_machine] stores the file, the
    two switches and the three times, then configures the two caches. *)
Lemma configure_machine_steps (p : CommandLine) (c : MachineConfig)
    (f : string) :
  positionalArguments p = [f] ->
  configure_machine p c
  = (access_cache_data (configure_cache (values p "d-cache") "data") ;;
     access_cache_program
       (configure_cache (values p "i-cache") "instruction"))
      (mkConfig f (negb (isSet p "no-delay-slot")) (isSet p "pipelined")
                (time_after p "read-time" (mem_acc_read c))
                (time_after p "write-time" (mem_acc_write c))
                (time_after p "burst-time" (mem_acc_burst c))
                (cache_data c) (cache_program c)).
Proof.
  intros Hp. unfold configure_machine, time_after. rewrite Hp.
  change (negb (length [f] =? 1)%nat) with false. cbv iota.
  unfold set_elf, set_delay_slot, set_pipelined, set_memory_access_time_read,
    set_memory_access_time_write, set_memory_access_time_burst, when.
  destruct (1 <=? length (values p "read-time"))%nat;
    destruct (1 <=? length (values p "write-time"))%nat;
    destruct (1 <=? length (values p "burst-time"))%nat;
    reflexivity.
Qed.

Lemma configure_machine_times (p : CommandLine) (c : MachineConfig)
    (f : string) :
  positionalArguments p = [f] ->
  let c' := fst (configure_machine p c) in
  mem_acc_read c' = time_after p "read-time" (mem_acc_read c)
  /\ mem_acc_write c' = time_after p "write-time" (mem_acc_write c)
  /\ mem_acc_burst c' = time_after p "burst-time" (mem_acc_burst c)
  /\ (values p "d-cache" = [] -> values p "i-cache" = [] ->
      snd (configure_machine p c) = Done tt).
Proof.
  intros Hp. cbv zeta. rewrite (configure_machine_steps p c f Hp).
  set (c1 := mkConfig _ _ _ _ _ _ _ _).
  set (d := configure_cache (values p "d-cache") "data").
  set (i := configure_cache (values p "i-cache") "instruction").
  assert (Ht : let c' :=
                 fst ((access_cache_data d ;; access_cache_program i) c1) in
               mem_acc_read c' = mem_acc_read c1
                  /\ mem_acc_write c' = mem_acc_write c1
                  /\ mem_acc_burst c' = mem_acc_burst c1).
  { cbv zeta. unfold bind.
    pose proof (access_cache_data_times d c1) as Hd. cbv zeta in Hd.
    destruct (access_cache_data d c1) as [c2 [[]| |]]; simpl in Hd |- *;
      try exact Hd.
    pose proof (access_cache_program_times i c2) as Hi. cbv zeta in Hi.
    destruct Hd as (Hd1 & Hd2 & Hd3). destruct Hi as (Hi1 & Hi2 & Hi3).
    repeat split; congruence. }
  cbv zeta in Ht. destruct Ht as (Hr & Hw & Hb).
  repeat split; try assumption.
  intros Hd Hi. subst d i. rewrite Hd, Hi. reflexivity.
Qed.

(** C8.  A read-time, write-time or burst-time value that is no integer is
    not refused: its last occurrence reads as 0, the access time is set to 0,
    and with no cache flag the configuration ends normally, no diagnostic
    printed.  [abc] is such a value. *)
Theorem bad_access_time_reads_as_zero (p : CommandLine) (c : MachineConfig)
    (f v : string) (vs : list string) :
  positionalArguments p = [f] ->
  Qt.toLong_ok v 10 = None ->
  (values p "read-time" = (vs ++ [v])%list ->
   mem_acc_read (fst (configure_machine p c)) = 0)
  /\ (values p "write-time" = (vs ++ [v])%list ->
      mem_acc_write (fst (configure_machine p c)) = 0)
  /\ (values p "burst-time" = (vs ++ [v])%list ->
      mem_acc_burst (fst (configure_machine p c)) = 0)
  /\ (values p "d-cache" = [] -> values p "i-cache" = [] ->
      snd (configure_machine p c) = Done tt)
  /\ Qt.toLong_ok "abc" 10 = None.
Proof.
  intros Hp Hv.
  destruct (configure_machine_times p c f Hp) as (Hr & Hw & Hb & Hend).
  assert (Hlast : forall name old,
             values p name = (vs ++ [v])%list -> time_after p name old = 0).
  { intros name old H. unfold time_after.
    rewrite H, at_last, (toLong_failed v Hv).
    replace (1 <=? length (vs ++ [v]))%nat with true; [reflexivity|].
    symmetry. apply Nat.leb_le. rewrite length_app. simpl. lia. }
  cbv zeta in Hr, Hw, Hb.
  repeat split.
  - intros H. rewrite Hr. now apply Hlast.
  - intros H. rewrite Hw. now apply Hlast.
  - intros H. rewrite Hb. now apply Hlast.
  - exact Hend.
Qed.


Lemma bad_access_time_reads_as_zero_witness :
  mem_acc_read (fst (configure_machine sample_command_line sample_config)) = 0
  /\ snd (configure_machine sample_command_line sample_config) = Done tt.
Proof.
  destruct (bad_access_time_reads_as_zero
              sample_command_line sample_config "prog.elf" "abc" ["5"]
              eq_refl eq_refl) as (Hr & _ & _ & Hend & _).
  split; [apply Hr; reflexivity | apply Hend; reflexivity].
Defined.

(** ** Load ranges: values wider than a word *)

Lemma stoul_in_range (s : string) (base v : Z) (n : nat) :
  Std.stoul s base = inl (v, n) -> v <= ULONG_MAX.
Proof.
  unfold Std.stoul.
  destruct (Scan.number base s) as [r|]; [|discriminate].
  destruct (Z.gtb_spec (Scan.mag r) ULONG_MAX) as [Hgt|Hle]; [discriminate|].
  intros H. injection H as Hv _. subst v.
  destruct (Scan.neg r); [|exact Hle].
  pose proof (Z.mod_pos_bound (- Scan.mag r) ULONG_MOD eq_refl).
  unfold ULONG_MAX, ULONG_MOD in *. lia.
Qed.

(** C9.  A line whose number is above [2^32 - 1] and within [unsigned long]
    is not refused: the word written at the current address is the number
    modulo [2^32], which differs from the number, and the loop goes on with
    the next address.  A file with the single line [4294967301] writes 5. *)
Theorem load_line_truncates_wide_value (addr : Z) (line : string) (e b : nat)
    (v : Z) (m : Memory) :
  Std.find_last_not_of blanks line = Some e ->
  Std.find_first_not_of blanks line = Some b ->
  Std.stoul (Std.substr_from (Std.substr line 0 (e + 1)) b) 0
  = inl (v, String.length (Std.substr_from (Std.substr line 0 (e + 1)) b)) ->
  2 ^ 32 - 1 < v ->
  v <= ULONG_MAX
  /\ load_line addr line m
     = ((m ++ [(addr, v mod 2 ^ 32)])%list, Done (to_uint32 (addr + 4)))
  /\ v mod 2 ^ 32 <> v
  /\ load_ranges (one_file "f" "4294967301") None ["0,f"] []
     = ([(0, 5)], Done tt).
Proof.
  intros He Hb Hv Hwide.
  split; [exact (stoul_in_range _ _ _ _ Hv)|].
  split; [|split; [|vm_compute; reflexivity]].
  - unfold load_line. rewrite He, Hb. cbv zeta. rewrite Hv.
    rewrite Nat.eqb_refl. reflexivity.
  - pose proof (Z.mod_pos_bound v (2 ^ 32) eq_refl). lia.
Qed.

Lemma load_line_truncates_wide_value_witness :
  load_line 16 "  0x100000007 " [(12, 1)]
  = ([(12, 1); (16, 7)], Done 20).
Proof.
  apply (load_line_truncates_wide_value
           16 "  0x100000007 " 12 2 4294967303 [(12, 1)]);
    reflexivity.
Defined.

(** * Further properties *)

(** ** Cache flags: outcomes and what a success leaves *)

Lemma cache_write_policy_cases (pieces : list string) (which : string)
    (c : MachineConfigCache) :
  (exists wp,
      cache_write_policy pieces which c
      = (mkCache (enabled c) (sets c) (blocks c) (associativity c)
                 (replacement_policy c) wp, Done tt)
      /\ ((length pieces <= 3)%nat -> wp = write_policy c))
  \/ cache_write_policy pieces which c
     = (c, Exit 1 Cerr (msg_write_policy which)).
Proof.
  unfold cache_write_policy.
  destruct (Nat.ltb_spec 3 (length pieces)) as [Hlt|Hge].
  - repeat match goal with
           | |- context [if ?b then _ else _] => destruct b
           end;
      try (left; eexists; split; [reflexivity | intros; lia]).
    right. reflexivity.
  - left. exists (write_policy c). split; [destruct c; reflexivity | auto].
Qed.

(** The dimension stage: the three values it stores, and how it ends. *)
Lemma cache_dimensions_cases (pieces : list string) (which : string)
    (c : MachineConfigCache) :
  let s := to_uint32 (Qt.toLong (at_ pieces 0)) in
  let b := to_uint32 (Qt.toLong (at_ pieces 1)) in
  let a := to_uint32 (Qt.toLong (at_ pieces 2)) in
  let stored := mkCache (enabled c) s b a (replacement_policy c)
                        (write_policy c) in
  ((length pieces < 3)%nat
   /\ cache_dimensions pieces which c
      = (c, Exit 1 Cerr (msg_parameters which)))
  \/ ((3 <= length pieces)%nat /\ (s = 0 \/ b = 0 \/ a = 0)
      /\ cache_dimensions pieces which c
         = (stored, Exit 1 Cerr (msg_zero which)))
  \/ ((3 <= length pieces)%nat /\ s <> 0 /\ b <> 0 /\ a <> 0
      /\ cache_dimensions pieces which c
         = cache_write_policy pieces which stored).
Proof.
  cbv zeta. unfold cache_dimensions.
  destruct (Nat.ltb_spec (length pieces) 3) as [Hlt|Hge].
  - left. split; [exact Hlt | reflexivity].
  - right. unfold set_sets, set_blocks, set_associativity. run.
    cbn [sets blocks associativity enabled replacement_policy write_policy].
    destruct (Z.eqb_spec (to_uint32 (Qt.toLong (at_ pieces 0))) 0) as [Hs|Hs];
      [left; split; [exact Hge|]; split; [auto | reflexivity]|].
    destruct (Z.eqb_spec (to_uint32 (Qt.toLong (at_ pieces 1))) 0) as [Hb|Hb];
      [left; split; [exact Hge|]; split; [auto | reflexivity]|].
    destruct (Z.eqb_spec (to_uint32 (Qt.toLong (at_ pieces 2))) 0) as [Ha|Ha];
      [left; split; [exact Hge|]; split; [auto | reflexivity]|].
    right. repeat split; assumption.
Qed.

(** One cache text, stage by stage. *)
Lemma configure_cache_one (raw which : string) (c : MachineConfigCache) :
  let on := mkCache true (sets c) (blocks c) (associativity c)
                    (replacement_policy c) (write_policy c) in
  configure_cache [raw] which c
  = if (length (Qt.split raw) <? 3)%nat
    then (on, Exit 1 Cerr (msg_parameters which))
    else if (String.length (at_ (Qt.split raw) 0) <? 1)%nat
         then (on, Exit 1 Cerr (msg_policy which))
         else bind (cache_policy (Qt.split raw) which)
                   (fun pieces => cache_dimensions pieces which) on.
Proof.
  cbv zeta. unfold configure_cache.
  change (at_ [raw] (length [raw] - 1)) with raw.
  change (length [raw] <? 1)%nat with false.
  unfold set_enabled. run.
  destruct (length (Qt.split raw) <? 3)%nat; [reflexivity|].
  destruct (String.length (at_ (Qt.split raw) 0) <? 1)%nat; reflexivity.
Qed.

Lemma to_uint32_range (v : Z) : 0 <= to_uint32 v < UINT32_MOD.
Proof. unfold to_uint32. apply Z.mod_pos_bound. reflexivity. Qed.

(** How [configure_cache] can end. *)
Lemma configure_cache_ends (args : list string) (which : string)
    (c : MachineConfigCache) :
  snd (configure_cache args which c) = Done tt
  \/ snd (configure_cache args which c) = Exit 1 Cerr (msg_parameters which)
  \/ snd (configure_cache args which c) = Exit 1 Cerr (msg_policy which)
  \/ snd (configure_cache args which c) = Exit 1 Cerr (msg_zero which)
  \/ snd (configure_cache args which c)
     = Exit 1 Cerr (msg_write_policy which).
Proof.
  destruct (rev args) as [|raw pre] eqn:Hrev.
  - apply (f_equal (@rev string)) in Hrev. rewrite rev_involutive in Hrev.
    subst args. left. reflexivity.
  - apply (f_equal (@rev string)) in Hrev. rewrite rev_involutive in Hrev.
    simpl in Hrev. subst args.
    rewrite configure_cache_last, configure_cache_one.
    destruct (length (Qt.split raw) <? 3)%nat; [auto|].
    destruct (String.length (at_ (Qt.split raw) 0) <? 1)%nat; [auto|].
    unfold bind.
    match goal with
    | |- context [cache_policy _ _ ?c1] =>
        destruct (cache_policy_cases raw which c1) as [[rp E] | E]; rewrite E
    end; [|auto].
    match goal with
    | |- context [cache_dimensions ?f ?w ?c2] =>
        destruct (cache_dimensions_cases f w c2)
          as [[_ E1] | [(_ & _ & E1) | (_ & _ & _ & _ & E1)]];
        rewrite E1
    end; [auto | auto |].
    match goal with
    | |- context [cache_write_policy ?f ?w ?c3] =>
        destruct (cache_write_policy_cases f w c3) as [[wp [E2 _]] | E2];
        rewrite E2
    end; simpl; auto 6.
Qed.

(** X1.  However a cache flag is written, [configure_cache] either returns
    or prints one of its four diagnostics on the error stream and exits with
    status 1; no exception escapes.  Without any occurrence of the flag it
    returns and the object is untouched. *)
Theorem configure_cache_outcomes (args : list string) (which : string)
    (c : MachineConfigCache) :
  (snd (configure_cache args which c) = Done tt
   \/ snd (configure_cache args which c) = Exit 1 Cerr (msg_parameters which)
   \/ snd (configure_cache args which c) = Exit 1 Cerr (msg_policy which)
   \/ snd (configure_cache args which c) = Exit 1 Cerr (msg_zero which)
   \/ snd (configure_cache args which c)
      = Exit 1 Cerr (msg_write_policy which))
  /\ configure_cache [] which c = (c, Done tt).
Proof.
  split; [apply configure_cache_ends | reflexivity].
Qed.

(** X2.  When a cache flag was given and [configure_cache] returns, the
    cache is enabled and its three dimensions are the values of the last
    text's fields, each between 1 and [2^32 - 1]. *)
Theorem configure_cache_success (args : list string) (raw which : string)
    (c c' : MachineConfigCache) :
  configure_cache (args ++ [raw]) which c = (c', Done tt) ->
  enabled c' = true
  /\ sets c' = to_uint32 (Qt.toLong (at_ (geometry_fields raw) 0))
  /\ blocks c' = to_uint32 (Qt.toLong (at_ (geometry_fields raw) 1))
  /\ associativity c' = to_uint32 (Qt.toLong (at_ (geometry_fields raw) 2))
  /\ 0 < sets c' < UINT32_MOD
  /\ 0 < blocks c' < UINT32_MOD
  /\ 0 < associativity c' < UINT32_MOD.
Proof.
  rewrite configure_cache_last, configure_cache_one.
  destruct (length (Qt.split raw) <? 3)%nat; [discriminate|].
  destruct (String.length (at_ (Qt.split raw) 0) <? 1)%nat; [discriminate|].
  unfold bind.
  match goal with
  | |- context [cache_policy _ _ ?c1] =>
      destruct (cache_policy_cases raw which c1) as [[rp E] | E]; rewrite E
  end; [|discriminate].
  match goal with
  | |- context [cache_dimensions ?f ?w ?c2] =>
      destruct (cache_dimensions_cases f w c2)
        as [[_ E1] | [(_ & _ & E1) | (_ & Hs & Hb & Ha & E1)]];
      rewrite E1
  end; [discriminate | discriminate |].
  match goal with
  | |- context [cache_write_policy ?f ?w ?c3] =>
      destruct (cache_write_policy_cases f w c3) as [[wp [E2 _]] | E2];
      rewrite E2
  end; [|discriminate].
  intros H. injection H as <-.
  cbn [enabled sets blocks associativity] in *.
  pose proof (to_uint32_range (Qt.toLong (at_ (geometry_fields raw) 0))).
  pose proof (to_uint32_range (Qt.toLong (at_ (geometry_fields raw) 1))).
  pose proof (to_uint32_range (Qt.toLong (at_ (geometry_fields raw) 2))).
  repeat split; try reflexivity; lia.
Qed.

Lemma configure_cache_success_witness :
  enabled (mkCache true 8 4 2 RP_LFU WP_THROUGH_ALLOC) = true
  /\ sets (mkCache true 8 4 2 RP_LFU WP_THROUGH_ALLOC)
     = to_uint32 (Qt.toLong (at_ (geometry_fields "LFU,8,4,2,wta") 0))
  /\ blocks (mkCache true 8 4 2 RP_LFU WP_THROUGH_ALLOC)
     = to_uint32 (Qt.toLong (at_ (geometry_fields "LFU,8,4,2,wta") 1))
  /\ associativity (mkCache true 8 4 2 RP_LFU WP_THROUGH_ALLOC)
     = to_uint32 (Qt.toLong (at_ (geometry_fields "LFU,8,4,2,wta") 2))
  /\ 0 < sets (mkCache true 8 4 2 RP_LFU WP_THROUGH_ALLOC) < UINT32_MOD
  /\ 0 < blocks (mkCache true 8 4 2 RP_LFU WP_THROUGH_ALLOC) < UINT32_MOD
  /\ 0 < associativity (mkCache true 8 4 2 RP_LFU WP_THROUGH_ALLOC)
     < UINT32_MOD.
Proof.
  apply (configure_cache_success ["1,1,1"] "LFU,8,4,2,wta" "data" fresh_cache).
  reflexivity.
Defined.

(** ** Cache flags: what is kept, what is ignored *)

Lemma split_not_nil (s : string) : Qt.split s <> [].
Proof.
  destruct s as [|c s]; simpl; [discriminate|].
  destruct (c =? ",")%char; [discriminate|].
  destruct (Qt.split s); discriminate.
Qed.

(** The first piece of a text that does not begin with a comma begins with
    the first character of the text. *)
Lemma split_head (c : ascii) (t : string) :
  (c =? ",")%char = false ->
  exists h rest, Qt.split (String c t) = String c h :: rest.
Proof.
  intros Hc. simpl. rewrite Hc.
  destruct (Qt.split t) as [|h rest]; [exists "", [] | exists h, rest];
    reflexivity.
Qed.

Lemma split_app (a b : string) :
  Qt.split (a ++ String "," b) = (Qt.split a ++ Qt.split b)%list.
Proof.
  induction a as [|c a IH]; simpl; [reflexivity|].
  destruct (c =? ",")%char; rewrite IH; [reflexivity|].
  pose proof (split_not_nil a) as Hne.
  destruct (Qt.split a) as [|h t]; [contradiction | reflexivity].
Qed.

Lemma cache_write_policy_replacement (pieces : list string) (which : string)
    (c : MachineConfigCache) :
  replacement_policy (fst (cache_write_policy pieces which c))
  = replacement_policy c.
Proof.
  destruct (cache_write_policy_cases pieces which c) as [[wp [E _]] | E];
    rewrite E; reflexivity.
Qed.

Lemma cache_dimensions_replacement (pieces : list string) (which : string)
    (c : MachineConfigCache) :
  replacement_policy (fst (cache_dimensions pieces which c))
  = replacement_policy c.
Proof.
  destruct (cache_dimensions_cases pieces which c)
    as [[_ E] | [(_ & _ & E) | (_ & _ & _ & _ & E)]]; rewrite E;
    try reflexivity.
  rewrite cache_write_policy_replacement. reflexivity.
Qed.

(** X3.  A cache text that begins with a digit has no policy word: the
    replacement policy the object held is kept, however the run ends.  When
    the run returns and the text has exactly three dimension fields, the
    write policy the object held is kept as well. *)
Theorem cache_omitted_policies_kept (args : list string) (raw which : string)
    (c : MachineConfigCache) :
  (is_digit (at0 raw) = true ->
   replacement_policy (fst (configure_cache (args ++ [raw]) which c))
   = replacement_policy c)
  /\ (length (geometry_fields raw) = 3%nat ->
      snd (configure_cache (args ++ [raw]) which c) = Done tt ->
      write_policy (fst (configure_cache (args ++ [raw]) which c))
      = write_policy c).
Proof.
  rewrite configure_cache_last, configure_cache_one.
  split.
  - intros Hd.
    destruct (length (Qt.split raw) <? 3)%nat; [reflexivity|].
    destruct (String.length (at_ (Qt.split raw) 0) <? 1)%nat; [reflexivity|].
    assert (H0 : Qt.isDigit (at0 (at_ (Qt.split raw) 0)) = true).
    { destruct raw as [|x t]; [discriminate Hd|]. simpl in Hd.
      destruct (split_head x t (digit_not_comma x Hd)) as (h & rest & E).
      rewrite E. exact Hd. }
    unfold bind, cache_policy. rewrite H0. unfold ret. cbn [negb].
    match goal with
    | |- context [cache_dimensions ?f ?w ?c2] =>
        pose proof (cache_dimensions_replacement f w c2) as Hr;
        destruct (cache_dimensions f w c2) as [c3 []]
    end; exact Hr.
  - intros Hlen.
    destruct (length (Qt.split raw) <? 3)%nat; [discriminate|].
    destruct (String.length (at_ (Qt.split raw) 0) <? 1)%nat; [discriminate|].
    unfold bind.
    match goal with
    | |- context [cache_policy _ _ ?c1] =>
        destruct (cache_policy_cases raw which c1) as [[rp E] | E]; rewrite E
    end; [|discriminate].
    match goal with
    | |- context [cache_dimensions ?f ?w ?c2] =>
        destruct (cache_dimensions_cases f w c2)
          as [[_ E1] | [(_ & _ & E1) | (_ & _ & _ & _ & E1)]];
        rewrite E1
    end; [discriminate | discriminate |].
    match goal with
    | |- context [cache_write_policy ?f ?w ?c3] =>
        destruct (cache_write_policy_cases f w c3) as [[wp [E2 Hwp]] | E2];
        rewrite E2
    end; [|discriminate].
    intros _. cbn [fst write_policy]. apply Hwp. lia.
Qed.

Lemma cache_omitted_policies_kept_witness :
  replacement_policy
    (fst (configure_cache (["lru,1,1,1"] ++ ["4,2,2"]) "data"
                          (mkCache false 1 1 1 RP_LFU WP_BACK))) = RP_LFU
  /\ write_policy
       (fst (configure_cache (["lru,1,1,1"] ++ ["4,2,2"]) "data"
                             (mkCache false 1 1 1 RP_LFU WP_BACK))) = WP_BACK.
Proof.
  destruct (cache_omitted_policies_kept
              ["lru,1,1,1"] "4,2,2" "data"
              (mkCache false 1 1 1 RP_LFU WP_BACK)) as [Hr Hw].
  split; [apply Hr | apply Hw]; reflexivity.
Defined.

Section Letters.

Lemma tolower_idem (c : ascii) : tolower (tolower c) = tolower c.
Proof. destruct c as [[] [] [] [] [] [] [] []]; reflexivity. Qed.

Lemma tolower_comma (c : ascii) : (tolower c =? ",")%char = (c =? ",")%char.
Proof. destruct c as [[] [] [] [] [] [] [] []]; reflexivity. Qed.

Lemma tolower_digit (c : ascii) : is_digit (tolower c) = is_digit c.
Proof. destruct c as [[] [] [] [] [] [] [] []]; reflexivity. Qed.

Lemma toLower_cons (c : ascii) (s : string) :
  Qt.toLower (String c s) = String (tolower c) (Qt.toLower s).
Proof. reflexivity. Qed.

Lemma toLower_idem (s : string) : Qt.toLower (Qt.toLower s) = Qt.toLower s.
Proof.
  induction s as [|c s IH]; [reflexivity|].
  now rewrite !toLower_cons, tolower_idem, IH.
Qed.

Lemma toLower_length (s : string) :
  String.length (Qt.toLower s) = String.length s.
Proof.
  induction s as [|c s IH]; [reflexivity|].
  rewrite toLower_cons. simpl. now rewrite IH.
Qed.

Lemma toLower_comma (s : string) : has_comma (Qt.toLower s) = has_comma s.
Proof.
  induction s as [|c s IH]; [reflexivity|].
  rewrite toLower_cons. simpl. now rewrite tolower_comma, IH.
Qed.

Lemma toLower_at0 (s : string) :
  is_digit (at0 (Qt.toLower s)) = is_digit (at0 s).
Proof.
  destruct s as [|c s]; [reflexivity|].
  rewrite toLower_cons. simpl. apply tolower_digit.
Qed.

End Letters.

(** X4.  The policy word is read without regard to case: writing it in
    lower case instead changes nothing, whatever the word and whatever
    follows it. *)
Theorem cache_policy_word_case (pol rest which : string)
    (c : MachineConfigCache) :
  has_comma pol = false ->
  is_digit (at0 pol) = false ->
  configure_cache [pol ++ "," ++ rest] which c
  = configure_cache [Qt.toLower pol ++ "," ++ rest] which c.
Proof.
  intros Hc Hd.
  rewrite !configure_cache_one.
  change (pol ++ "," ++ rest) with (pol ++ String "," rest).
  change (Qt.toLower pol ++ "," ++ rest)
    with (Qt.toLower pol ++ String "," rest).
  rewrite (split_at_comma pol rest Hc).
  rewrite (split_at_comma (Qt.toLower pol) rest)
    by (rewrite toLower_comma; exact Hc).
  cbn [length at_ nth]. rewrite toLower_length.
  destruct (S (length (Qt.split rest)) <? 3)%nat; [reflexivity|].
  destruct (String.length pol <? 1)%nat; [reflexivity|].
  unfold bind, cache_policy.
  cbn [at_ nth tl]. unfold Qt.isDigit.
  rewrite toLower_at0, toLower_idem, Hd. reflexivity.
Qed.

Lemma cache_policy_word_case_witness :
  configure_cache ["LrU" ++ "," ++ "4,2,2,WB"] "data" fresh_cache
  = configure_cache [Qt.toLower "LrU" ++ "," ++ "4,2,2,WB"] "data" fresh_cache.
Proof.
  apply (cache_policy_word_case "LrU" "4,2,2,WB" "data" fresh_cache);
    reflexivity.
Defined.

Lemma cache_policy_app (p e : list string) (which : string)
    (c : MachineConfigCache) :
  p <> [] ->
  cache_policy (p ++ e) which c
  = match cache_policy p which c with
    | (c', Done f) => (c', Done (f ++ e)%list)
    | other => other
    end.
Proof.
  intros Hp. destruct p as [|x p]; [contradiction|].
  unfold cache_policy. cbn [app at_ nth tl].
  destruct (negb (Qt.isDigit (at0 x))); [|reflexivity].
  unfold bind.
  repeat match goal with
         | |- context [if ?b then _ else _] => destruct b
         end; reflexivity.
Qed.

Lemma at_app (f e : list string) (i : nat) :
  (i < length f)%nat -> at_ (f ++ e) i = at_ f i.
Proof. intros H. unfold at_. now apply app_nth1. Qed.

Lemma cache_dimensions_app (f e : list string) (which : string)
    (c : MachineConfigCache) :
  (4 <= length f)%nat ->
  cache_dimensions (f ++ e) which c = cache_dimensions f which c.
Proof.
  intros Hf.
  unfold cache_dimensions, cache_write_policy.
  rewrite !at_app by lia.
  rewrite length_app.
  destruct (Nat.ltb_spec (length f + length e) 3); [lia|].
  destruct (Nat.ltb_spec (length f) 3); [lia|].
  destruct (Nat.ltb_spec 3 (length f + length e)); [|lia].
  destruct (Nat.ltb_spec 3 (length f)); [|lia].
  reflexivity.
Qed.

(** X5.  Once a cache text has its write-policy field, whatever is added
    after a further comma is ignored. *)
Theorem cache_fields_after_write_policy_ignored (raw extra which : string)
    (c : MachineConfigCache) :
  (4 <= length (geometry_fields raw))%nat ->
  configure_cache [raw ++ "," ++ extra] which c
  = configure_cache [raw] which c.
Proof.
  intros Hlen.
  rewrite !configure_cache_one.
  change (raw ++ "," ++ extra) with (raw ++ String "," extra).
  rewrite split_app.
  pose proof (split_not_nil raw) as Hne.
  assert (Hraw : (4 <= length (Qt.split raw))%nat).
  { unfold geometry_fields in Hlen.
    destruct (negb (Qt.isDigit (at0 (at_ (Qt.split raw) 0)))); [|exact Hlen].
    destruct (Qt.split raw); simpl in *; lia. }
  rewrite at_app by lia. rewrite length_app.
  destruct (Nat.ltb_spec (length (Qt.split raw) + length (Qt.split extra)) 3);
    [lia|].
  destruct (Nat.ltb_spec (length (Qt.split raw)) 3); [lia|].
  destruct (String.length (at_ (Qt.split raw) 0) <? 1)%nat; [reflexivity|].
  unfold bind. rewrite (cache_policy_app _ _ _ _ Hne).
  match goal with
  | |- context [cache_policy _ _ ?c1] =>
      destruct (cache_policy_cases raw which c1) as [[rp E] | E]; rewrite E
  end; [|reflexivity].
  apply cache_dimensions_app. exact Hlen.
Qed.

Lemma cache_fields_after_write_policy_ignored_witness :
  configure_cache ["lru,4,2,2,wb" ++ "," ++ "9,x,,"] "data" fresh_cache
  = configure_cache ["lru,4,2,2,wb"] "data" fresh_cache.
Proof.
  apply (cache_fields_after_write_policy_ignored "lru,4,2,2,wb" "9,x,,"
                                                 "data" fresh_cache).
  simpl. lia.
Defined.

(** ** Cache flags: dimensions that are no positive number *)

(** X6.  A dimension field that is no decimal integer for [toLong()], or
    whose value is a multiple of [2^32], reads as zero once stored in the
    [unsigned] field: the run stops with a diagnostic and status 1. *)
Theorem cache_dimension_reading_zero (args : list string) (raw which : string)
    (c : MachineConfigCache) (i : nat) :
  (i < 3)%nat ->
  Qt.toLong_ok (at_ (geometry_fields raw) i) 10 = None
  \/ (exists k, Qt.toLong (at_ (geometry_fields raw) i) = k * UINT32_MOD) ->
  exists c' msg,
    configure_cache (args ++ [raw]) which c = (c', Exit 1 Cerr msg).
Proof.
  intros Hi Hz.
  assert (H0 : to_uint32 (Qt.toLong (at_ (geometry_fields raw) i)) = 0).
  { destruct Hz as [Hn | [k Hk]].
    - rewrite (toLong_failed _ Hn). reflexivity.
    - rewrite Hk. unfold to_uint32. apply Z.mod_mul. discriminate. }
  rewrite configure_cache_last, configure_cache_one.
  destruct (length (Qt.split raw) <? 3)%nat; [do 2 eexists; reflexivity|].
  destruct (String.length (at_ (Qt.split raw) 0) <? 1)%nat;
    [do 2 eexists; reflexivity|].
  unfold bind.
  match goal with
  | |- context [cache_policy _ _ ?c1] =>
      destruct (cache_policy_cases raw which c1) as [[rp E] | E]; rewrite E
  end; [|do 2 eexists; reflexivity].
  match goal with
  | |- context [cache_dimensions ?f ?w ?c2] =>
      destruct (cache_dimensions_cases f w c2)
        as [[_ E1] | [(_ & _ & E1) | (_ & Hs & Hb & Ha & E1)]];
      rewrite E1
  end; [do 2 eexists; reflexivity | do 2 eexists; reflexivity |].
  exfalso.
  destruct i as [|[|[|i]]]; [contradiction | contradiction | contradiction|].
  lia.
Qed.

Lemma cache_dimension_reading_zero_witness :
  exists c' msg,
    configure_cache ([] ++ ["lru,4,x2,4294967296"]) "data" fresh_cache
    = (c', Exit 1 Cerr msg).
Proof.
  apply (cache_dimension_reading_zero [] "lru,4,x2,4294967296" "data"
                                      fresh_cache 1).
  - lia.
  - left. reflexivity.
Defined.

Section Trimming.

Lemma rtrim_no_space (s : string) :
  no_space s = true ->
  Qt.rtrim_list (list_ascii_of_string s) = list_ascii_of_string s.
Proof.
  induction s as [|c s IH]; simpl; intros H; [reflexivity|].
  apply andb_prop in H as [Hc Hs]. rewrite (IH Hs).
  destruct (list_ascii_of_string s); [|reflexivity].
  apply negb_true_iff in Hc. now rewrite Hc.
Qed.

(** A text without white space is its own trimmed form. *)
Lemma trimmed_no_space (s : string) : no_space s = true -> Qt.trimmed s = s.
Proof.
  intros H. unfold Qt.trimmed.
  assert (Hl : Qt.ltrim s = s).
  { destruct s as [|c s]; [reflexivity|]. simpl in *.
    apply andb_prop in H as [Hc _]. apply negb_true_iff in Hc.
    now rewrite Hc. }
  rewrite Hl, (rtrim_no_space s H). apply string_of_list_ascii_of_string.
Qed.

Lemma digits_no_space (s : string) : all_digits s = true -> no_space s = true.
Proof.
  induction s as [|c s IH]; simpl; intros H; [reflexivity|].
  apply andb_prop in H as [Hc Hs].
  now rewrite (digit_not_space c Hc), (IH Hs).
Qed.

End Trimming.

(** A minus sign before decimal digits: [toLong()] gives the negative
    value. *)
Lemma toLong_negative (ds : string) :
  decimal_text ds = true -> decimal ds <= - LONG_MIN ->
  Qt.toLong (String "-" ds) = - decimal ds.
Proof.
  unfold decimal_text. intros H Hmax.
  apply andb_prop in H as [Hne Hd].
  unfold Qt.toLong, Qt.toLong_ok, Qt.to_signed.
  rewrite (trimmed_no_space (String "-" ds))
    by (simpl; apply digits_no_space; exact Hd).
  unfold Scan.number.
  cbn [Scan.skip_space]. change (is_space "-") with false.
  cbv iota.
  change (Scan.sign (String "-" ds) 0) with (true, ds, 1%nat).
  cbv zeta beta iota.
  change (Scan.detect 10 ds 1) with (10, ds, 1%nat).
  cbv zeta beta iota.
  rewrite (digits_decimal ds Hd 0 0).
  fold (decimal ds).
  destruct ds as [|c ds]; [discriminate Hne|].
  cbn [String.length Nat.add Scan.neg Scan.mag Scan.used].
  rewrite Nat.eqb_refl.
  pose proof (decimal_from_nonneg (String c ds) Hd 0 (Z.le_refl 0)) as Hpos.
  fold (decimal (String c ds)) in Hpos.
  destruct (Z.leb_spec LONG_MIN (- decimal (String c ds))); [|lia].
  destruct (Z.leb_spec (- decimal (String c ds)) LONG_MAX);
    [reflexivity | unfold LONG_MAX in *; lia].
Qed.

(** X7.  After a policy word a negative dimension is not refused: [-n]
    is stored as [2^32 - n].  A cache text that itself begins with a minus
    sign never succeeds: its first field is taken for a policy word. *)
Theorem cache_negative_dimension :
  (forall (which ds : string) (c : MachineConfigCache),
      decimal_text ds = true -> 0 < decimal ds < UINT32_MOD ->
      configure_cache ["lru,-" ++ ds ++ ",1,1"] which c
      = (mkCache true (UINT32_MOD - decimal ds) 1 1 RP_LRU (write_policy c),
         Done tt))
  /\ (forall (t which : string) (c : MachineConfigCache),
         snd (configure_cache [String "-" t] which c)
         = Exit 1 Cerr (msg_parameters which)
         \/ snd (configure_cache [String "-" t] which c)
            = Exit 1 Cerr (msg_policy which)).
Proof.
  split.
  - intros which ds c Hs Rs.
    pose proof Hs as Hs'. unfold decimal_text in Hs'.
    apply andb_prop in Hs' as [_ Ds].
    assert (Hsplit : Qt.split ("lru,-" ++ ds ++ ",1,1")
                     = ["lru"; String "-" ds; "1"; "1"]).
    { change ("lru,-" ++ ds ++ ",1,1")
        with ("lru" ++ String "," (String "-" ds ++ String "," "1,1")).
      rewrite (split_at_comma "lru") by reflexivity.
      rewrite (split_at_comma (String "-" ds))
        by (simpl; apply digits_no_comma; exact Ds).
      reflexivity. }
    rewrite configure_cache_one, Hsplit.
    cbn [length Nat.ltb Nat.leb at_ nth String.length].
    unfold bind, cache_policy, cache_dimensions, cache_write_policy,
      set_replacement_policy, set_sets, set_blocks, set_associativity.
    run. cbn -[Qt.toLong to_uint32 decimal UINT32_MOD].
    rewrite (toLong_negative ds Hs)
      by (unfold LONG_MIN, UINT32_MOD in *; lia).
    change (to_uint32 (Qt.toLong "1")) with 1.
    assert (Hw : to_uint32 (- decimal ds) = UINT32_MOD - decimal ds).
    { unfold to_uint32. symmetry.
      apply (Z.mod_unique _ _ (-1)); unfold UINT32_MOD in *; lia. }
    rewrite Hw.
    destruct (Z.eqb_spec (UINT32_MOD - decimal ds) 0); [lia|].
    reflexivity.
  - intros t which c.
    rewrite configure_cache_one.
    destruct (split_head "-" t eq_refl) as (h & rest & E). rewrite E.
    destruct (length (String "-" h :: rest) <? 3)%nat; [left; reflexivity|].
    right. reflexivity.
Qed.

Lemma cache_negative_dimension_witness :
  configure_cache ["lru,-" ++ "5" ++ ",1,1"] "data" fresh_cache
  = (mkCache true 4294967291 1 1 RP_LRU WP_THROUGH_NOALLOC, Done tt).
Proof.
  apply (proj1 cache_negative_dimension "data" "5" fresh_cache);
    [reflexivity | vm_compute; split; reflexivity].
Defined.

(** ** Machine configuration: the file, the switches, the times *)

(** Configuring the data cache touches that cache only. *)
Lemma access_cache_data_shape {A} (m : M MachineConfigCache A)
    (c : MachineConfig) :
  access_cache_data m c
  = (mkConfig (elf c) (delay_slot c) (pipelined c) (mem_acc_read c)
              (mem_acc_write c) (mem_acc_burst c)
              (fst (m (cache_data c))) (cache_program c),
     snd (m (cache_data c))).
Proof.
  unfold access_cache_data, zoom. destruct (m (cache_data c)). reflexivity.
Qed.

Lemma access_cache_program_shape {A} (m : M MachineConfigCache A)
    (c : MachineConfig) :
  access_cache_program m c
  = (mkConfig (elf c) (delay_slot c) (pipelined c) (mem_acc_read c)
              (mem_acc_write c) (mem_acc_burst c)
              (cache_data c) (fst (m (cache_program c))),
     snd (m (cache_program c))).
Proof.
  unfold access_cache_program, zoom. destruct (m (cache_program c)).
  reflexivity.
Qed.

(** X8.  [configure_machine] prints [Single ELF file has to be specified]
    and exits exactly when the number of positional arguments is not one;
    the configuration object is then untouched. *)
Theorem configure_machine_needs_one_file (p : CommandLine)
    (c : MachineConfig) :
  (length (positionalArguments p) <> 1%nat ->
   configure_machine p c
   = (c, Exit 1 Cerr "Single ELF file has to be specified"))
  /\ (snd (configure_machine p c)
      = Exit 1 Cerr "Single ELF file has to be specified" ->
      length (positionalArguments p) <> 1%nat).
Proof.
  split.
  - intros H. unfold configure_machine.
    apply Nat.eqb_neq in H. rewrite H. reflexivity.
  - intros H Hone.
    destruct (positionalArguments p) as [|f [|g l]] eqn:Hp;
      try discriminate Hone.
    rewrite (configure_machine_steps p c f Hp) in H.
    unfold bind in H. rewrite access_cache_data_shape in H.
    cbn [cache_data] in H.
    match type of H with
    | context [configure_cache ?a "data" ?d] =>
        destruct (configure_cache_ends a "data" d) as [E|[E|[E|[E|E]]]];
        rewrite E in H; try discriminate H
    end.
    rewrite access_cache_program_shape in H. cbn [cache_program snd] in H.
    match type of H with
    | context [configure_cache ?a "instruction" ?d] =>
        destruct (configure_cache_ends a "instruction" d)
          as [E'|[E'|[E'|[E'|E']]]];
        rewrite E' in H; discriminate H
    end.
Qed.

Lemma configure_machine_needs_one_file_witness :
  configure_machine (mkCmd ["a.elf"; "b.elf"] (fun _ => false) (fun _ => []))
                    sample_config
  = (sample_config, Exit 1 Cerr "Single ELF file has to be specified").
Proof.
  apply (proj1 (configure_machine_needs_one_file
                  (mkCmd ["a.elf"; "b.elf"] (fun _ => false) (fun _ => []))
                  sample_config)).
  simpl. lia.
Defined.

(** X9.  The data cache is configured before the instruction cache: when
    the data-cache flag is refused, the run ends with that diagnostic, the
    instruction-cache flag is not looked at and the instruction cache is as
    it was; the file, the switches and the times are already stored. *)
Theorem data_cache_error_ends_configuration (p : CommandLine)
    (c : MachineConfig) (f : string) (dc : MachineConfigCache) (st : Z)
    (to : stream) (msg : string) :
  positionalArguments p = [f] ->
  configure_cache (values p "d-cache") "data" (cache_data c)
  = (dc, Exit st to msg) ->
  configure_machine p c
  = (mkConfig f (negb (isSet p "no-delay-slot")) (isSet p "pipelined")
              (time_after p "read-time" (mem_acc_read c))
              (time_after p "write-time" (mem_acc_write c))
              (time_after p "burst-time" (mem_acc_burst c))
              dc (cache_program c),
     Exit st to msg).
Proof.
  intros Hp Hd.
  rewrite (configure_machine_steps p c f Hp).
  unfold bind. rewrite access_cache_data_shape.
  cbn [cache_data cache_program elf delay_slot pipelined mem_acc_read
       mem_acc_write mem_acc_burst].
  rewrite Hd. reflexivity.
Qed.

Lemma data_cache_error_ends_configuration_witness :
  configure_machine
    (mkCmd ["a.elf"] (fun _ => false)
           (fun n => if (n =? "d-cache")%string then ["lru,0,1,1"]
                     else if (n =? "i-cache")%string then ["bogus"] else []))
    sample_config
  = (mkConfig "a.elf" true false 10 10 0
              (mkCache true 0 1 1 RP_LRU WP_THROUGH_NOALLOC) fresh_cache,
     Exit 1 Cerr (msg_zero "data")).
Proof.
  apply (data_cache_error_ends_configuration
           (mkCmd ["a.elf"] (fun _ => false)
                  (fun n => if (n =? "d-cache")%string then ["lru,0,1,1"]
                            else if (n =? "i-cache")%string then ["bogus"]
                                 else []))
           sample_config "a.elf"
           (mkCache true 0 1 1 RP_LRU WP_THROUGH_NOALLOC) 1 Cerr
           (msg_zero "data"));
    reflexivity.
Defined.

Lemma time_after_absent (p : CommandLine) (name : string) (old : Z) :
  values p name = [] -> time_after p name old = old.
Proof. intros H. unfold time_after. rewrite H. reflexivity. Qed.

Lemma time_after_last (p : CommandLine) (name v : string) (vs : list string)
    (old : Z) :
  values p name = (vs ++ [v])%list ->
  decimal_text v = true -> decimal v < UINT32_MOD ->
  time_after p name old = decimal v.
Proof.
  intros H Hv Hlt. unfold time_after. rewrite H, at_last.
  replace (1 <=? length (vs ++ [v]))%nat with true
    by (symmetry; apply Nat.leb_le; rewrite length_app; simpl; lia).
  rewrite (toLong_decimal v Hv) by (unfold LONG_MAX, UINT32_MOD in *; lia).
  unfold to_uint32. apply Z.mod_small.
  unfold decimal_text in Hv. apply andb_prop in Hv as [_ Hd].
  pose proof (decimal_from_nonneg v Hd 0 (Z.le_refl 0)).
  fold (decimal v) in *. lia.
Qed.

Lemma configure_machine_switches (p : CommandLine) (c : MachineConfig)
    (f : string) :
  positionalArguments p = [f] ->
  elf (fst (configure_machine p c)) = f
  /\ delay_slot (fst (configure_machine p c)) = negb (isSet p "no-delay-slot")
  /\ pipelined (fst (configure_machine p c)) = isSet p "pipelined".
Proof.
  intros Hp.
  rewrite (configure_machine_steps p c f Hp).
  unfold bind. rewrite access_cache_data_shape.
  cbn [cache_data cache_program elf delay_slot pipelined mem_acc_read
       mem_acc_write mem_acc_burst].
  destruct (snd (configure_cache (values p "d-cache") "data" (cache_data c)))
    as [[]| |]; cbn [fst]; try (repeat split; reflexivity).
  rewrite access_cache_program_shape. repeat split; reflexivity.
Qed.

(** X10.  With one file named, [configure_machine] stores the file name,
    sets the delay slot unless no-delay-slot is given and the pipeline when
    pipelined is given; an access-time flag that is absent leaves its time
    as it was, and one given several times in decimal sets the time to its
    last value.  This holds however the cache flags end. *)
Theorem configure_machine_stores (p : CommandLine) (c : MachineConfig)
    (f : string) :
  positionalArguments p = [f] ->
  let c' := fst (configure_machine p c) in
  elf c' = f
  /\ delay_slot c' = negb (isSet p "no-delay-slot")
  /\ pipelined c' = isSet p "pipelined"
  /\ (values p "read-time" = [] -> mem_acc_read c' = mem_acc_read c)
  /\ (values p "write-time" = [] -> mem_acc_write c' = mem_acc_write c)
  /\ (values p "burst-time" = [] -> mem_acc_burst c' = mem_acc_burst c)
  /\ (forall vs v, values p "read-time" = (vs ++ [v])%list ->
                   decimal_text v = true -> decimal v < UINT32_MOD ->
                   mem_acc_read c' = decimal v)
  /\ (forall vs v, values p "write-time" = (vs ++ [v])%list ->
                   decimal_text v = true -> decimal v < UINT32_MOD ->
                   mem_acc_write c' = decimal v)
  /\ (forall vs v, values p "burst-time" = (vs ++ [v])%list ->
                   decimal_text v = true -> decimal v < UINT32_MOD ->
                   mem_acc_burst c' = decimal v).
Proof.
  intros Hp. cbv zeta.
  destruct (configure_machine_times p c f Hp) as (Hr & Hw & Hb & _).
  destruct (configure_machine_switches p c f Hp) as (He & Hd & Hpi).
  cbv zeta in Hr, Hw, Hb. rewrite Hr, Hw, Hb.
  repeat split; try assumption;
    try (intros H0; now apply time_after_absent);
    intros vs v H0 Hv Hlt; now apply (time_after_last p _ v vs).
Qed.

Lemma configure_machine_stores_witness :
  let c' := fst (configure_machine sample_command_line sample_config) in
  elf c' = "prog.elf" /\ delay_slot c' = true /\ pipelined c' = false
  /\ mem_acc_write c' = 10.
Proof.
  destruct (configure_machine_stores sample_command_line sample_config
                                     "prog.elf" eq_refl)
    as (He & Hd & Hp & _ & Hw & _).
  cbv zeta.
  split; [exact He | split; [exact Hd | split; [exact Hp |]]].
  apply Hw. reflexivity.
Defined.

(** ** Logs only grow *)

Section Appends.

Context {C : Type} (Q : C -> Prop).

Lemma appends_ret {A} (a : A) : appends Q (@ret (list C) A a).
Proof. intros r. exists []. now rewrite app_nil_r. Qed.

Lemma appends_fatal {A} (to : stream) (msg : string) :
  appends Q (@fatal (list C) A to msg).
Proof. intros r. exists []. now rewrite app_nil_r. Qed.

Lemma appends_call (c : C) : Q c -> appends Q (call c).
Proof. intros H r. exists [c]. split; [reflexivity | now constructor]. Qed.

Lemma appends_bind {A B} (m : M (list C) A) (k : A -> M (list C) B) :
  appends Q m -> (forall a, appends Q (k a)) -> appends Q (bind m k).
Proof.
  intros Hm Hk r. unfold bind.
  destruct (Hm r) as (w & Hw & HQ).
  destruct (m r) as [s' [a| |]]; simpl in Hw; subst s'.
  - destruct (Hk a (r ++ w)%list) as (w' & Hw' & HQ').
    exists (w ++ w')%list. rewrite Hw', app_assoc.
    split; [reflexivity | now apply Forall_app].
  - exists w. now split.
  - exists w. now split.
Qed.

Lemma appends_when (b : bool) (m : M (list C) unit) :
  (b = true -> appends Q m) -> appends Q (when b m).
Proof.
  intros H. destruct b; simpl; [now apply H | apply appends_ret].
Qed.

Lemma appends_for_each {A} (l : list A) (body : A -> M (list C) unit) :
  (forall x, In x l -> appends Q (body x)) -> appends Q (for_each l body).
Proof.
  induction l as [|x l IH]; simpl; intros H; [apply appends_ret|].
  apply appends_bind; [apply H; now left|].
  intros _. apply IH. intros y Hy. apply H. now right.
Qed.

End Appends.

(** ** Tracer configuration *)

Lemma toInt_range (tok : string) (num : Z) :
  Qt.toInt tok = Some num -> INT_MIN <= num <= INT_MAX.
Proof.
  unfold Qt.toInt, Qt.to_signed.
  destruct (Scan.number 10 (Qt.trimmed tok)) as [r|]; [|discriminate].
  match goal with |- context [if ?b then _ else _] => destruct b eqn:E end;
    [|discriminate].
  intros H. injection H as <-.
  apply andb_prop in E as [E Hhi]. apply andb_prop in E as [_ Hlo].
  apply Z.leb_le in Hhi, Hlo. split; assumption.
Qed.

Lemma trace_gp_appends (Q : TracerCall -> Prop) (tok : string) :
  (forall i, INT_MIN <= i <= 32 -> Q (tr_reg_gp i)) ->
  appends Q (trace_gp tok).
Proof.
  intros HQ. unfold trace_gp.
  destruct (tok =? "*")%string.
  - unfold trace_all_gp. apply appends_for_each.
    intros y Hy. apply appends_call. apply HQ.
    apply in_map_iff in Hy as (n & <- & Hn). apply in_seq in Hn.
    unfold INT_MIN. lia.
  - destruct (Qt.toInt tok) as [num|] eqn:E; [|apply appends_fatal].
    destruct (Z.leb_spec num 32); [|apply appends_fatal].
    apply appends_call. apply HQ.
    pose proof (toInt_range tok num E). lia.
Qed.

Lemma configure_tracer_appends (Q : TracerCall -> Prop) (p : CommandLine) :
  Q tr_fetch -> Q tr_reg_pc -> Q tr_reg_lo -> Q tr_reg_hi ->
  (forall i, INT_MIN <= i <= 32 -> Q (tr_reg_gp i)) ->
  (isSet p "pipelined" = true ->
   Q tr_decode /\ Q tr_execute /\ Q tr_memory /\ Q tr_writeback) ->
  appends Q (configure_tracer p).
Proof.
  intros Hf Hpc Hlo Hhi Hgp Hst. unfold configure_tracer.
  repeat first
         [ apply appends_bind; [|intros _]
         | apply appends_when; intros ?
         | apply appends_call
         | apply appends_for_each; intros ? _; apply trace_gp_appends ];
    try assumption;
    match goal with
    | H : isSet p "pipelined" = true |- _ =>
        destruct (Hst H) as (? & ? & ? & ?); assumption
    end.
Qed.

(** X11.  The traces of the decode, execute, memory and write-back stages
    are asked for only when pipelined is given: without it
    [configure_tracer] adds none of these four calls, whatever the other
    flags.  The trace of the fetch stage is asked for whenever trace-fetch
    is given. *)
Theorem tracer_stage_gating (p : CommandLine) (r : Tracer) :
  (isSet p "pipelined" = false ->
   exists w, fst (configure_tracer p r) = (r ++ w)%list
             /\ Forall (fun c => later_stage c = false) w)
  /\ (isSet p "trace-fetch" = true -> In tr_fetch (fst (configure_tracer p r))).
Proof.
  split.
  - intros Hp.
    apply (configure_tracer_appends (fun c => later_stage c = false));
      try reflexivity.
    rewrite Hp. discriminate.
  - intros Hf. unfold configure_tracer. rewrite Hf.
    unfold bind at 1. cbn [when call modify].
    match goal with
    | |- In _ (fst (?k0 (r ++ [tr_fetch])%list)) => set (k := k0)
    end.
    assert (Hk : appends (fun _ => True) k).
    { subst k.
      repeat first
             [ apply appends_bind; [|intros _]
             | apply appends_when; intros ?
             | apply appends_call
             | apply appends_for_each; intros ? _; apply trace_gp_appends ];
        auto. }
    destruct (Hk (r ++ [tr_fetch])%list) as (w & Hw & _).
    assert (Hin : In tr_fetch ((r ++ [tr_fetch]) ++ w)%list).
    { apply in_or_app. left. apply in_or_app. right. now left. }
    rewrite <- Hw in Hin. exact Hin.
Qed.

Lemma tracer_stage_gating_witness :
  exists w,
    fst (configure_tracer
           (mkCmd [] (fun n => negb (n =? "pipelined")%string)
                  (fun n => if (n =? "trace-gp")%string then ["3"] else []))
           [tr_reg_hi])
    = ([tr_reg_hi] ++ w)%list
    /\ Forall (fun c => later_stage c = false) w.
Proof.
  apply (proj1 (tracer_stage_gating
                  (mkCmd [] (fun n => negb (n =? "pipelined")%string)
                         (fun n => if (n =? "trace-gp")%string then ["3"]
                                   else []))
                  [tr_reg_hi])).
  reflexivity.
Defined.

(** X12.  Whatever the command line, every register number that
    [configure_tracer] hands to the tracer lies between [INT_MIN] and 32. *)
Theorem tracer_register_numbers (p : CommandLine) (r : Tracer) :
  exists w,
    fst (configure_tracer p r) = (r ++ w)%list
    /\ Forall (fun c => match c with
                        | tr_reg_gp i => INT_MIN <= i <= 32
                        | _ => True
                        end) w.
Proof.
  apply (configure_tracer_appends
           (fun c => match c with
                     | tr_reg_gp i => INT_MIN <= i <= 32
                     | _ => True
                     end));
    try exact I.
  - intros i Hi. exact Hi.
  - intros _. repeat split.
Qed.

Lemma for_each_call {C A : Type} (f : A -> C) (l : list A) (r : list C) :
  for_each l (fun y => call (f y)) r = ((r ++ map f l)%list, Done tt).
Proof.
  revert r. induction l as [|x l IH]; intros r; simpl.
  - unfold ret. now rewrite app_nil_r.
  - unfold bind. cbn [call modify]. rewrite IH, <- app_assoc. reflexivity.
Qed.

(** One token: its calls are added, or the run stops and names it. *)
Lemma trace_gp_step (tok : string) (r : Tracer) :
  trace_gp tok r
  = if gp_accepts tok then ((r ++ gp_calls tok)%list, Done tt)
    else (r, Exit 1 Cout (msg_register tok)).
Proof.
  unfold trace_gp, gp_accepts, gp_calls.
  destruct (tok =? "*")%string; simpl.
  - unfold trace_all_gp. rewrite for_each_call, map_map. reflexivity.
  - destruct (Qt.toInt tok) as [num|]; [|reflexivity].
    destruct (num <=? 32); reflexivity.
Qed.

Lemma trace_gp_loop (pre : list string) (r : Tracer) :
  forallb gp_accepts pre = true ->
  for_each pre trace_gp r = ((r ++ flat_map gp_calls pre)%list, Done tt).
Proof.
  revert r. induction pre as [|t pre IH]; intros r H; simpl.
  - unfold ret. now rewrite app_nil_r.
  - simpl in H. apply andb_prop in H as [Ht Hpre].
    unfold bind. rewrite trace_gp_step, Ht, (IH _ Hpre), <- app_assoc.
    reflexivity.
Qed.

Lemma trace_gp_loop_stops (pre post : list string) (bad : string)
    (r : Tracer) :
  forallb gp_accepts pre = true -> gp_accepts bad = false ->
  for_each (pre ++ bad :: post) trace_gp r
  = ((r ++ flat_map gp_calls pre)%list, Exit 1 Cout (msg_register bad)).
Proof.
  revert r. induction pre as [|t pre IH]; intros r H Hbad; simpl.
  - unfold bind. rewrite trace_gp_step, Hbad, app_nil_r. reflexivity.
  - simpl in H. apply andb_prop in H as [Ht Hpre].
    unfold bind. rewrite trace_gp_step, Ht, (IH _ Hpre Hbad), <- app_assoc.
    reflexivity.
Qed.

(** [configure_tracer] first makes the stage and program-counter calls,
    always, then runs the register loop and the two last switches. *)
Lemma configure_tracer_prefix (p : CommandLine) (r : Tracer) :
  configure_tracer p r
  = (for_each (values p "trace-gp") trace_gp ;;
     when (isSet p "trace-lo") (call tr_reg_lo) ;;
     when (isSet p "trace-hi") (call tr_reg_hi))
      (r ++ stage_calls p)%list.
Proof.
  unfold configure_tracer, stage_calls.
  destruct (isSet p "trace-fetch"), (isSet p "pipelined"),
    (isSet p "trace-decode"), (isSet p "trace-execute"),
    (isSet p "trace-memory"), (isSet p "trace-writeback"),
    (isSet p "trace-pc");
    unfold bind at 1 2 3; cbn [when call modify ret bind app];
    rewrite <- ?app_assoc, ?app_nil_r; reflexivity.
Qed.

(** X13.  The register tokens are taken in order.  When all are accepted
    the tracer receives the stage calls, the registers of each token in
    turn, then the LO and HI calls.  At the first refused token the run
    stops and names it: the registers of the tokens before it have been
    handed over, those after it and the LO and HI switches have not. *)
Theorem configure_tracer_runs (p : CommandLine) (r : Tracer) :
  (forallb gp_accepts (values p "trace-gp") = true ->
   configure_tracer p r
   = ((r ++ stage_calls p ++ flat_map gp_calls (values p "trace-gp")
         ++ lo_hi_calls p)%list, Done tt))
  /\ (forall pre bad post,
         values p "trace-gp" = (pre ++ bad :: post)%list ->
         forallb gp_accepts pre = true -> gp_accepts bad = false ->
         configure_tracer p r
         = ((r ++ stage_calls p ++ flat_map gp_calls pre)%list,
            Exit 1 Cout (msg_register bad))).
Proof.
  split.
  - intros H. rewrite configure_tracer_prefix.
    unfold bind at 1. rewrite (trace_gp_loop _ _ H).
    unfold lo_hi_calls.
    destruct (isSet p "trace-lo"), (isSet p "trace-hi");
      unfold bind, when, call, modify, ret; cbn beta iota;
      rewrite <- ?app_assoc, ?app_nil_r; reflexivity.
  - intros pre bad post Hv Hpre Hbad. rewrite configure_tracer_prefix, Hv.
    unfold bind at 1. rewrite (trace_gp_loop_stops _ _ _ _ Hpre Hbad).
    rewrite <- app_assoc. reflexivity.
Qed.

Lemma configure_tracer_runs_witness :
  configure_tracer
    (mkCmd [] (fun n => (n =? "trace-lo")%string || (n =? "trace-pc")%string)
           (fun n => if (n =? "trace-gp")%string then ["7"; "40"; "8"]
                     else []))
    []
  = ([tr_reg_pc; tr_reg_gp 7], Exit 1 Cout (msg_register "40")).
Proof.
  apply (proj2 (configure_tracer_runs
                  (mkCmd [] (fun n => (n =? "trace-lo")%string
                                      || (n =? "trace-pc")%string)
                         (fun n => if (n =? "trace-gp")%string
                                   then ["7"; "40"; "8"] else []))
                  [])
               ["7"] "40" ["8"]);
    reflexivity.
Defined.

(** ** Reporter configuration *)

Lemma fail_char_step (c : ascii) (r : Reporter) :
  fail_char c r
  = match trap_letter c with
    | Some fr => ((r ++ [r_expect_fail fr])%list, Done tt)
    | None => (r, Exit 1 Cout ("Unknown fail condition: " ++ String c ""))
    end.
Proof. destruct c as [[] [] [] [] [] [] [] []]; reflexivity. Qed.

Lemma fail_match_step (v : string) (r : Reporter) :
  fail_match v r
  = ((r ++ map r_expect_fail (trap_reasons v))%list,
     match first_unknown v with
     | None => Done tt
     | Some c => Exit 1 Cout ("Unknown fail condition: " ++ String c "")
     end).
Proof.
  unfold fail_match. revert r.
  induction v as [|c v IH]; intros r; simpl.
  - unfold ret. now rewrite app_nil_r.
  - unfold bind. rewrite fail_char_step.
    destruct (trap_letter c) as [fr|].
    + rewrite IH. simpl. rewrite <- app_assoc. reflexivity.
    + simpl. now rewrite app_nil_r.
Qed.

(** X14.  The letters of a fail-match value are read one by one, in either
    case: [i], [a], [o], [j] name the four trap kinds, each recorded in
    order.  The first other character stops the run and is named in the
    diagnostic; the kinds of the letters before it are already recorded.
    Values without such a character are all recorded, value after value. *)
Theorem fail_match_letters :
  (forall (v : string) (r : Reporter),
      fail_match v r
      = ((r ++ map r_expect_fail (trap_reasons v))%list,
         match first_unknown v with
         | None => Done tt
         | Some c => Exit 1 Cout ("Unknown fail condition: " ++ String c "")
         end))
  /\ (forall (vs : list string) (r : Reporter),
         Forall (fun v => first_unknown v = None) vs ->
         for_each vs fail_match r
         = ((r ++ map r_expect_fail (flat_map trap_reasons vs))%list,
            Done tt)).
Proof.
  split; [exact fail_match_step|].
  intros vs r H. revert r.
  induction H as [|v vs Hv _ IH]; intros r; simpl.
  - unfold ret. now rewrite app_nil_r.
  - unfold bind. rewrite fail_match_step, Hv, IH.
    rewrite map_app, <- app_assoc. reflexivity.
Qed.

Lemma fail_match_letters_witness :
  for_each ["IaOJ"; "jj"] fail_match [r_regs]
  = ([r_regs; r_expect_fail FR_I; r_expect_fail FR_A; r_expect_fail FR_O;
      r_expect_fail FR_J; r_expect_fail FR_J; r_expect_fail FR_J], Done tt).
Proof.
  apply (proj2 fail_match_letters ["IaOJ"; "jj"] [r_regs]).
  apply Forall_cons; [reflexivity|].
  apply Forall_cons; [reflexivity|].
  apply Forall_nil.
Defined.

Lemma bind_done {S A B} (m : M S A) (k : A -> M S B) (s s' : S) (b : B) :
  bind m k s = (s', Done b) ->
  exists a s1, m s = (s1, Done a) /\ k a s1 = (s', Done b).
Proof.
  unfold bind. destruct (m s) as [s1 [a| |]]; try discriminate.
  intros H. now exists a, s1.
Qed.

Lemma appends_done {C A} (Q : C -> Prop) (m : M (list C) A) (r r' : list C)
    (a : A) :
  appends Q m -> m r = (r', Done a) ->
  exists w, r' = (r ++ w)%list /\ Forall Q w.
Proof.
  intros Hm E. destruct (Hm r) as (w & Hw & HQ).
  rewrite E in Hw. now exists w.
Qed.

Lemma fail_match_appends (Q : ReporterCall -> Prop) (v : string) :
  (forall fr, fr <> FailAny -> Q (r_expect_fail fr)) ->
  appends Q (fail_match v).
Proof.
  intros HQ r. rewrite fail_match_step. cbn [fst]. eexists. split;
    [reflexivity|].
  induction v as [|c v IH]; simpl; [constructor|].
  destruct (trap_letter c) as [fr|] eqn:E; simpl; [|constructor].
  constructor; [|exact IH].
  apply HQ. destruct c as [[] [] [] [] [] [] [] []]; simpl in E;
    first [discriminate E | injection E as <-; discriminate].
Qed.

(** A dump range adds one range to the reporter, or nothing at all. *)
Lemma dump_range_ends (symtab : option SymbolTable) (raw : string)
    (r : Reporter) :
  (exists start len fname,
      dump_range symtab raw r
      = ((r ++ [r_add_dump_range start len fname])%list, Done tt))
  \/ (exists msg, dump_range symtab raw r = (r, Exit 1 Cout msg)).
Proof.
  unfold dump_range.
  destruct (Qt.indexOf_comma raw 0 <? 0); [right; eexists; reflexivity|].
  destruct (Qt.indexOf_comma raw (Qt.indexOf_comma raw 0 + 1) <? 0);
    [right; eexists; reflexivity|].
  cbv zeta.
  repeat match goal with
         | |- context [match range_number ?t ?s with _ => _ end] =>
             destruct (range_number t s)
         end;
    try (right; eexists; reflexivity).
  left. do 3 eexists. reflexivity.
Qed.

Lemma dump_range_appends (Q : ReporterCall -> Prop)
    (symtab : option SymbolTable) (raw : string) :
  (forall s l f, Q (r_add_dump_range s l f)) ->
  appends Q (dump_range symtab raw).
Proof.
  intros HQ r.
  destruct (dump_range_ends symtab raw r) as [(s & l & f & E) | (msg & E)];
    rewrite E; cbn [fst].
  - eexists. split; [reflexivity|]. constructor; [apply HQ | constructor].
  - exists []. split; [now rewrite app_nil_r | constructor].
Qed.

(** X15.  When [configure_reporter] returns, it has told the reporter to
    accept any trap exactly when expect-fail is given and fail-match is
    not: nothing else it does adds that call. *)
Theorem expect_any_trap (p : CommandLine) (symtab : option SymbolTable)
    (r r' : Reporter) :
  configure_reporter p symtab r = (r', Done tt) ->
  exists w,
    r' = (r ++ w)%list
    /\ (In (r_expect_fail FailAny) w
        <-> isSet p "expect-fail" = true /\ isSet p "fail-match" = false).
Proof.
  set (Q := fun c => c <> r_expect_fail FailAny).
  unfold configure_reporter. intros H.
  apply bind_done in H as ([] & r1 & H1 & H).
  apply bind_done in H as ([] & r2 & H2 & H).
  apply bind_done in H as ([] & r3 & H3 & H).
  apply bind_done in H as ([] & r4 & H4 & H).
  apply bind_done in H as ([] & r5 & H5 & H).
  assert (Hcall : forall c, Q c -> appends Q (call c))
    by (intros c Hc; now apply appends_call).
  apply (appends_done Q) in H1 as (w1 & -> & Q1);
    [|apply appends_when; intros _; apply Hcall; discriminate].
  apply (appends_done Q) in H2 as (w2 & -> & Q2);
    [|apply appends_when; intros _; apply Hcall; discriminate].
  apply (appends_done Q) in H3 as (w3 & -> & Q3);
    [|apply appends_when; intros _; apply Hcall; discriminate].
  apply (appends_done Q) in H4 as (w4 & -> & Q4);
    [|apply appends_for_each; intros v _; apply fail_match_appends;
      intros fr Hfr E; injection E as ->; contradiction].
  apply (appends_done Q) in H as (w6 & -> & Q6);
    [|apply appends_for_each; intros v _; apply dump_range_appends;
      discriminate].
  assert (Hno : forall w, Forall Q w -> ~ In (r_expect_fail FailAny) w).
  { intros w Hw Hin. rewrite Forall_forall in Hw. now apply (Hw _ Hin). }
  destruct (isSet p "expect-fail" && negb (isSet p "fail-match")) eqn:Hc;
    cbn [when call modify ret] in H5; injection H5 as <-.
  - exists (w1 ++ w2 ++ w3 ++ w4 ++ [r_expect_fail FailAny] ++ w6)%list.
    split; [now rewrite <- !app_assoc|].
    apply andb_prop in Hc as [He Hf]. apply negb_true_iff in Hf.
    split; [auto|]. intros _.
    apply in_or_app; right. apply in_or_app; right. apply in_or_app; right.
    apply in_or_app; right. now left.
  - exists (w1 ++ w2 ++ w3 ++ w4 ++ w6)%list.
    split; [now rewrite <- !app_assoc|].
    split.
    + intros Hin. exfalso.
      repeat (apply in_app_or in Hin as [Hin|Hin];
              [revert Hin; apply Hno; assumption|]).
      revert Hin. apply Hno. assumption.
    + intros [He Hf]. rewrite He, Hf in Hc. discriminate Hc.
Qed.

Lemma expect_any_trap_witness :
  exists w,
    [r_cycles; r_expect_fail FailAny; r_add_dump_range 0 4 "o"]
    = ([] ++ w)%list
    /\ (In (r_expect_fail FailAny) w <-> true = true /\ false = false).
Proof.
  apply (expect_any_trap
           (mkCmd [] (fun n => (n =? "expect-fail")%string
                               || (n =? "dump-cycles")%string)
                  (fun n => if (n =? "dump-range")%string then ["0,4,o"]
                            else []))
           None [] [r_cycles; r_expect_fail FailAny;
                    r_add_dump_range 0 4 "o"]).
  reflexivity.
Defined.

(** ** Dump ranges: refused texts *)

Lemma indexOf_comma_none (s : string) (k : nat) :
  has_comma s = false -> Qt.indexOf_comma_nat s k = None.
Proof.
  revert k. induction s as [|c s IH]; intros k H; simpl; [reflexivity|].
  simpl in H. apply orb_false_elim in H as [Hc Hs].
  destruct k; [rewrite Hc|]; now rewrite (IH _ Hs).
Qed.

Lemma one_comma_positions (a b : string) :
  has_comma a = false -> has_comma b = false ->
  Qt.indexOf_comma (a ++ "," ++ b) 0 = Z.of_nat (String.length a)
  /\ Qt.indexOf_comma (a ++ "," ++ b) (Z.of_nat (String.length a) + 1) = -1.
Proof.
  intros Ha Hb. unfold Qt.indexOf_comma. split.
  - change (Z.to_nat 0) with O.
    change (a ++ "," ++ b) with (a ++ String "," b).
    now rewrite (indexOf_comma_first a b Ha).
  - replace (Z.to_nat (Z.of_nat (String.length a) + 1))
      with (String.length (a ++ ",") + 0)%nat
      by (rewrite strlen_app; simpl; lia).
    change (a ++ "," ++ b) with (a ++ String "," b).
    rewrite <- (app_comma a b), indexOf_comma_skip.
    now rewrite (indexOf_comma_none b 0 Hb).
Qed.

(** X16.  A dump range without a comma stops the run with [Range start
    missing]; one with a single comma with [Range lengt/name missing]; one
    whose start or length does not resolve with the range specification
    error.  However it is refused, the reporter is left as it was. *)
Theorem dump_range_refused (symtab : option SymbolTable) (r : Reporter) :
  (forall raw, has_comma raw = false ->
               dump_range symtab raw r = (r, Exit 1 Cout "Range start missing"))
  /\ (forall a b, has_comma a = false -> has_comma b = false ->
                  dump_range symtab (a ++ "," ++ b) r
                  = (r, Exit 1 Cout "Range lengt/name missing"))
  /\ (forall a b f, has_comma a = false -> has_comma b = false ->
                    range_number symtab a = None
                    \/ range_number symtab b = None ->
                    dump_range symtab (a ++ "," ++ b ++ "," ++ f) r
                    = (r, Exit 1 Cout msg_range))
  /\ (forall raw, snd (dump_range symtab raw r) <> Done tt ->
                  fst (dump_range symtab raw r) = r).
Proof.
  split; [|split; [|split]].
  - intros raw H. unfold dump_range, Qt.indexOf_comma.
    now rewrite (indexOf_comma_none raw _ H).
  - intros a b Ha Hb. unfold dump_range. cbv zeta.
    destruct (one_comma_positions a b Ha Hb) as [H1 H2].
    rewrite H1, H2.
    destruct (Z.ltb_spec (Z.of_nat (String.length a)) 0); [lia|].
    reflexivity.
  - intros a b f Ha Hb Hnone.
    destruct (dump_range_positions a b f Ha Hb) as (H1 & H2 & Ma & Mb & Mc).
    unfold dump_range. cbv zeta.
    rewrite H1, H2, Ma, Mb.
    destruct (Z.ltb_spec (Z.of_nat (String.length a)) 0); [lia|].
    destruct (Z.ltb_spec (Z.of_nat (String.length a + 1 + String.length b)) 0);
      [lia|].
    destruct Hnone as [Hn | Hn]; rewrite Hn;
      [|destruct (range_number symtab a)]; reflexivity.
  - intros raw H.
    destruct (dump_range_ends symtab raw r) as [(s & l & f & E) | (msg & E)];
      rewrite E in *; [now contradiction H | reflexivity].
Qed.

Lemma dump_range_refused_witness :
  dump_range None "4096" [r_regs]
  = ([r_regs], Exit 1 Cout "Range start missing")
  /\ dump_range None ("4096" ++ "," ++ "dump.bin") [r_regs]
     = ([r_regs], Exit 1 Cout "Range lengt/name missing")
  /\ dump_range None ("4096" ++ "," ++ "0x" ++ "," ++ "dump.bin") [r_regs]
     = ([r_regs], Exit 1 Cout msg_range).
Proof.
  destruct (dump_range_refused None [r_regs]) as (H1 & H2 & H3 & _).
  split; [|split].
  - apply H1. reflexivity.
  - apply H2; reflexivity.
  - apply H3; [reflexivity | reflexivity | right; reflexivity].
Defined.

(** ** Range numbers: names and bases *)

Section RangeNumbers.

Lemma trimmed_head (c : ascii) (t : string) :
  is_space c = false -> exists t', Qt.trimmed (String c t) = String c t'.
Proof.
  intros Hc. unfold Qt.trimmed. cbn [Qt.ltrim]. rewrite Hc.
  cbn [list_ascii_of_string Qt.rtrim_list].
  destruct (Qt.rtrim_list (list_ascii_of_string t)) as [|y l].
  - rewrite Hc. exists "". reflexivity.
  - exists (string_of_list_ascii (y :: l)). reflexivity.
Qed.

(** A text that begins with a letter or an underscore is no number. *)
Lemma toULong_name (c : ascii) (t : string) :
  is_name_start c = true -> Qt.toULong (String c t) 0 = None.
Proof.
  intros Hc. unfold Qt.toULong.
  assert (Hs : is_space c = false)
    by (destruct c as [[] [] [] [] [] [] [] []];
        first [discriminate Hc | reflexivity]).
  destruct (trimmed_head c t Hs) as [t' ->].
  destruct c as [[] [] [] [] [] [] [] []];
    first [discriminate Hc | reflexivity].
Qed.

Lemma digit_in_no_space (base : Z) (c : ascii) (d : Z) :
  digit_in base c = Some d -> is_space c = false.
Proof.
  unfold digit_in, digit_value, is_digit, is_lower, is_upper, is_space.
  destruct ((48 <=? code c) && (code c <=? 57)) eqn:E1;
    [intros _; lia|].
  destruct ((97 <=? code c) && (code c <=? 122)) eqn:E2;
    [intros _; lia|].
  destruct ((65 <=? code c) && (code c <=? 90)) eqn:E3;
    [intros _; lia | discriminate].
Qed.

Lemma all_in_no_space (base : Z) (s : string) :
  all_in base s = true -> no_space s = true.
Proof.
  induction s as [|c s IH]; simpl; intros H; [reflexivity|].
  destruct (digit_in base c) as [d|] eqn:E; [|discriminate].
  now rewrite (digit_in_no_space base c d E), (IH H).
Qed.

Lemma digits_all_in (base : Z) (s : string) :
  all_in base s = true ->
  forall acc n,
    Scan.digits base s acc n
    = (value_in base acc s, (n + String.length s)%nat).
Proof.
  induction s as [|c s IH]; simpl; intros H acc n.
  - f_equal. lia.
  - destruct (digit_in base c) as [d|]; [|discriminate].
    rewrite (IH H). f_equal. lia.
Qed.

Lemma value_in_nonneg (base : Z) (s : string) :
  0 <= base -> forall acc, 0 <= acc -> 0 <= value_in base acc s.
Proof.
  intros Hb. induction s as [|c s IH]; simpl; intros acc Hacc; [exact Hacc|].
  destruct (digit_in base c) as [d|] eqn:E; [|exact Hacc].
  apply IH. unfold digit_in, digit_value, is_digit, is_lower, is_upper in E.
  assert (0 <= d).
  { destruct ((48 <=? code c) && (code c <=? 57)) eqn:E1.
    - destruct (code c - 48 <? base); [|discriminate]. injection E as <-. lia.
    - destruct ((97 <=? code c) && (code c <=? 122)) eqn:E2.
      + destruct (code c - 97 + 10 <? base); [|discriminate].
        injection E as <-. lia.
      + destruct ((65 <=? code c) && (code c <=? 90)) eqn:E3;
          [|discriminate].
        destruct (code c - 65 + 10 <? base); [|discriminate].
        injection E as <-. lia. }
  nia.
Qed.

(** What the conversion gives once the scan has read all of a text without
    white space. *)
Lemma toULong_scanned (s : string) (v : Z) :
  no_space s = true ->
  Scan.number 0 s = Some (Scan.mk false v (String.length s)) ->
  v <= ULONG_MAX ->
  Qt.toULong s 0 = Some v.
Proof.
  intros Hs Hn Hv. unfold Qt.toULong.
  rewrite (trimmed_no_space s Hs), Hn.
  cbn [Scan.used Scan.neg Scan.mag negb]. rewrite Nat.eqb_refl.
  destruct (Z.leb_spec v ULONG_MAX); [reflexivity | lia].
Qed.

Lemma scan_decimal (c : ascii) (t : string) :
  is_digit c = true -> c <> "0"%char -> all_in 10 t = true ->
  Scan.number 0 (String c t)
  = Some (Scan.mk false (value_in 10 0 (String c t))
                  (String.length (String c t))).
Proof.
  intros Hc H0 Ht. unfold Scan.number.
  cbn [Scan.skip_space]. rewrite (digit_not_space c Hc).
  rewrite (digit_no_sign c t 0 Hc). cbv zeta beta iota.
  assert (Hd : Scan.detect 0 (String c t) 0 = (10, String c t, O)).
  { destruct c as [[] [] [] [] [] [] [] []];
      first [discriminate Hc | now contradiction H0 | reflexivity]. }
  rewrite Hd. cbv zeta beta iota.
  assert (Hall : all_in 10 (String c t) = true).
  { simpl. now rewrite (digit_in_10 c Hc). }
  rewrite (digits_all_in 10 _ Hall 0 0). reflexivity.
Qed.

Lemma scan_hex (x c : ascii) (t : string) :
  x = "x"%char \/ x = "X"%char -> all_in 16 (String c t) = true ->
  Scan.number 0 (String "0" (String x (String c t)))
  = Some (Scan.mk false (value_in 16 0 (String c t))
                  (String.length (String "0" (String x (String c t))))).
Proof.
  intros Hx Hh. unfold Scan.number.
  change (Scan.skip_space (String "0" (String x (String c t))) 0)
    with (String "0" (String x (String c t)), O).
  cbv zeta beta iota.
  change (Scan.sign (String "0" (String x (String c t))) 0)
    with (false, String "0" (String x (String c t)), O).
  cbv zeta beta iota.
  assert (Hd : Scan.detect 0 (String "0" (String x (String c t))) 0
               = (16, String c t, 2%nat)).
  { pose proof Hh as Hh'. simpl in Hh'.
    destruct (digit_in 16 c) as [d|] eqn:E; [|discriminate].
    unfold Scan.detect. cbn [Z.eqb]. cbv iota.
    destruct Hx; subst x; cbn; rewrite E; reflexivity. }
  rewrite Hd. cbv zeta beta iota.
  rewrite (digits_all_in 16 _ Hh 0 0). reflexivity.
Qed.

Lemma octal_not_x (c : ascii) (d : Z) :
  digit_in 8 c = Some d -> ((c =? "x") || (c =? "X"))%char = false.
Proof.
  intros H. destruct c as [[] [] [] [] [] [] [] []];
    first [reflexivity | discriminate H].
Qed.

Lemma scan_octal (o : string) :
  all_in 8 o = true ->
  Scan.number 0 (String "0" o)
  = Some (Scan.mk false (value_in 8 0 o) (String.length (String "0" o))).
Proof.
  intros Ho. unfold Scan.number.
  change (Scan.skip_space (String "0" o) 0) with (String "0" o, O).
  cbv zeta beta iota.
  change (Scan.sign (String "0" o) 0) with (false, String "0" o, O).
  cbv zeta beta iota.
  assert (Hd : Scan.detect 0 (String "0" o) 0 = (8, String "0" o, O)).
  { destruct o as [|x [|h s]]; try reflexivity.
    simpl in Ho. destruct (digit_in 8 x) as [d|] eqn:E; [|discriminate].
    unfold Scan.detect. cbn [Z.eqb]. cbv iota.
    now rewrite (octal_not_x x d E). }
  rewrite Hd. cbv zeta beta iota.
  assert (Hall : all_in 8 (String "0" o) = true) by exact Ho.
  rewrite (digits_all_in 8 _ Hall 0 0). reflexivity.
Qed.

End RangeNumbers.

(** X17.  A range start or length that begins with a letter or an
    underscore is a symbol: with a symbol table it is looked up there, its
    value taken modulo [2^32], and an unknown name does not resolve; without
    a table it never resolves, so a dump range with such a start stops with
    the range specification error. *)
Theorem range_symbol (c : ascii) (t : string) :
  is_name_start c = true ->
  (forall tab : SymbolTable,
      range_number (Some tab) (String c t)
      = option_map to_uint32 (tab (String c t)))
  /\ range_number None (String c t) = None
  /\ (forall (b f : string) (r : Reporter),
         has_comma (String c t) = false -> has_comma b = false ->
         dump_range None (String c t ++ "," ++ b ++ "," ++ f) r
         = (r, Exit 1 Cout msg_range)).
Proof.
  intros Hc.
  assert (Hd : is_digit c = false)
    by (destruct c as [[] [] [] [] [] [] [] []];
        first [discriminate Hc | reflexivity]).
  assert (Hnone : range_number None (String c t) = None).
  { unfold range_number. rewrite (toULong_name c t Hc).
    destruct (_ && _); reflexivity. }
  split; [|split; [exact Hnone|]].
  - intros tab. unfold range_number, Qt.isDigit. cbn [String.length at0].
    rewrite Hd. reflexivity.
  - intros b f r Ha Hb.
    destruct (dump_range_positions _ b f Ha Hb) as (H1 & H2 & Ma & Mb & Mc).
    unfold dump_range. cbv zeta. rewrite H1, H2, Ma, Mb, Hnone.
    destruct (Z.ltb_spec (Z.of_nat (String.length (String c t))) 0); [lia|].
    destruct (Z.ltb_spec
                (Z.of_nat (String.length (String c t) + 1 + String.length b))
                0); [lia|].
    reflexivity.
Qed.

Lemma range_symbol_witness :
  range_number (Some (fun n => if (n =? "main")%string
                               then Some 2147614720 else None)) "main"
  = Some 2147614720
  /\ range_number None "main" = None
  /\ dump_range None ("main" ++ "," ++ "64" ++ "," ++ "out.bin") []
     = ([], Exit 1 Cout msg_range).
Proof.
  destruct (range_symbol "m"%char "ain" eq_refl) as (H1 & H2 & H3).
  split; [|split].
  - apply (H1 (fun n => if (n =? "main")%string
                        then Some 2147614720 else None)).
  - exact H2.
  - apply H3; reflexivity.
Defined.

(** X18.  A range start or length that begins with a digit is read with
    the base its prefix names, symbol table or not: decimal when it does not
    begin with [0], hexadecimal after [0x] or [0X], octal after [0].  The
    value, which may take up to 64 bits, is kept modulo [2^32]. *)
Theorem range_number_bases (symtab : option SymbolTable) :
  (forall (c : ascii) (t : string),
      is_digit c = true -> c <> "0"%char -> all_in 10 t = true ->
      value_in 10 0 (String c t) <= ULONG_MAX ->
      range_number symtab (String c t)
      = Some (value_in 10 0 (String c t) mod 2 ^ 32))
  /\ (forall (x c : ascii) (t : string),
         x = "x"%char \/ x = "X"%char -> all_in 16 (String c t) = true ->
         value_in 16 0 (String c t) <= ULONG_MAX ->
         range_number symtab (String "0" (String x (String c t)))
         = Some (value_in 16 0 (String c t) mod 2 ^ 32))
  /\ (forall o : string,
         all_in 8 o = true -> value_in 8 0 o <= ULONG_MAX ->
         range_number symtab (String "0" o)
         = Some (value_in 8 0 o mod 2 ^ 32)).
Proof.
  assert (Hnum : forall c t v,
             is_digit c = true -> Qt.toULong (String c t) 0 = Some v ->
             range_number symtab (String c t) = Some (v mod 2 ^ 32)).
  { intros c t v Hc Hv. unfold range_number, Qt.isDigit.
    cbn [String.length at0]. rewrite Hc, Hv.
    destruct symtab; reflexivity. }
  split; [|split].
  - intros c t Hc H0 Ht Hv. apply (Hnum c t _ Hc).
    apply toULong_scanned; [|now apply scan_decimal | exact Hv].
    simpl. rewrite (digit_not_space c Hc). simpl.
    now apply (all_in_no_space 10).
  - intros x c t Hx Hh Hv. apply (Hnum "0"%char _ _ eq_refl).
    apply toULong_scanned; [|now apply scan_hex | exact Hv].
    destruct Hx; subst x; exact (all_in_no_space 16 (String c t) Hh).
  - intros o Ho Hv. apply (Hnum "0"%char _ _ eq_refl).
    apply toULong_scanned; [|now apply scan_octal | exact Hv].
    exact (all_in_no_space 8 o Ho).
Qed.

Lemma range_number_bases_witness :
  range_number None "4294967300" = Some 4
  /\ range_number None "0x1F" = Some 31
  /\ range_number None "017" = Some 15.
Proof.
  destruct (range_number_bases None) as (Hd & Hh & Ho).
  split; [|split].
  - apply (Hd "4"%char "294967300");
      [reflexivity | discriminate | reflexivity|].
    vm_compute. discriminate.
  - apply (Hh "x"%char "1"%char "F"); [left; reflexivity | reflexivity|].
    vm_compute. discriminate.
  - apply (Ho "17"); [reflexivity|]. vm_compute. discriminate.
Defined.

(** ** Load ranges: the range text *)

Lemma load_range_positions (a f : string) :
  has_comma a = false ->
  Qt.indexOf_comma (a ++ "," ++ f) 0 = Z.of_nat (String.length a)
  /\ Qt.mid (a ++ "," ++ f) 0 (Z.of_nat (String.length a)) = a
  /\ Qt.mid_from (a ++ "," ++ f) (Z.of_nat (String.length a) + 1) = f.
Proof.
  intros Ha. unfold Qt.mid_from, Qt.mid, Qt.indexOf_comma.
  split; [|split].
  - change (Z.to_nat 0) with O.
    change (a ++ "," ++ f) with (a ++ String "," f).
    now rewrite (indexOf_comma_first a f Ha).
  - destruct (Z.ltb_spec (Z.of_nat (String.length a)) 0); [lia|].
    rewrite Nat2Z.id. simpl Std.drop. apply take_app.
  - simpl (-1 <? 0).
    replace (Z.to_nat (Z.of_nat (String.length a) + 1))
      with (String.length (a ++ ",")) by (rewrite strlen_app; simpl; lia).
    change (a ++ "," ++ f) with (a ++ String "," f).
    rewrite <- (app_comma a f). apply drop_app.
Qed.

Lemma load_range_cut (fs : FileSystem) (symtab : option SymbolTable)
    (a f : string) (start : Z) (m : Memory) :
  has_comma a = false -> range_number symtab a = Some start ->
  load_range fs symtab (a ++ "," ++ f) m
  = load_lines start (file_lines fs f) m.
Proof.
  intros Ha Hs.
  destruct (load_range_positions a f Ha) as (H1 & Ma & Mf).
  unfold load_range. cbv zeta. rewrite H1, Ma, Mf, Hs.
  destruct (Z.ltb_spec (Z.of_nat (String.length a)) 0); [lia | reflexivity].
Qed.

(** X19.  A load range is cut at its first comma only: the file name is
    everything after it, commas included, and the lines of that file are
    loaded from the resolved start. *)
Theorem load_range_cuts_at_first_comma (fs : FileSystem)
    (symtab : option SymbolTable) (a f : string) (start : Z) (m : Memory) :
  has_comma a = false -> range_number symtab a = Some start ->
  load_range fs symtab (a ++ "," ++ f) m
  = load_lines start (file_lines fs f) m.
Proof.
  intros Ha Hs.
  destruct (load_range_positions a f Ha) as (Hcomma & Hstart & Hname).
  unfold load_range. cbv zeta.
  rewrite Hcomma, Hstart, Hname, Hs.
  destruct (Z.ltb_spec (Z.of_nat (String.length a)) 0) as [Hneg | _].
  - lia.
  - reflexivity.
Qed.

Lemma load_range_cuts_at_first_comma_witness :
  load_range (one_file "a,b.txt" "9") None ("0x40" ++ "," ++ "a,b.txt") []
  = ([(64, 9)], Done tt).
Proof.
  apply (load_range_cuts_at_first_comma (one_file "a,b.txt" "9") None
                                        "0x40" "a,b.txt" 64 []);
    reflexivity.
Defined.

(** X20.  A load range whose file cannot be opened is not an error: when
    the start resolves, nothing is written and the run goes on. *)
Theorem load_range_missing_file (fs : FileSystem)
    (symtab : option SymbolTable) (a f : string) (start : Z) (m : Memory) :
  has_comma a = false -> range_number symtab a = Some start ->
  fs f = None ->
  load_range fs symtab (a ++ "," ++ f) m = (m, Done tt).
Proof.
  intros Ha Hs Hf. rewrite (load_range_cut fs symtab a f start m Ha Hs).
  unfold file_lines. rewrite Hf. reflexivity.
Qed.

Lemma load_range_missing_file_witness :
  load_range (one_file "f" "1") None ("16" ++ "," ++ "nowhere") [(0, 1)]
  = ([(0, 1)], Done tt).
Proof.
  apply (load_range_missing_file (one_file "f" "1") None "16" "nowhere" 16
                                 [(0, 1)]);
    reflexivity.
Defined.

(** X21.  A load range without a comma stops the run with [Range start
    missing], and one whose start does not resolve with the range
    specification error, whether or not the file exists; the memory is left
    as it was. *)
Theorem load_range_refused (fs : FileSystem) (symtab : option SymbolTable)
    (m : Memory) :
  (forall raw, has_comma raw = false ->
               load_range fs symtab raw m
               = (m, Exit 1 Cout "Range start missing"))
  /\ (forall a f, has_comma a = false -> range_number symtab a = None ->
                  load_range fs symtab (a ++ "," ++ f) m
                  = (m, Exit 1 Cout msg_range)).
Proof.
  split.
  - intros raw H. unfold load_range, Qt.indexOf_comma.
    now rewrite (indexOf_comma_none raw _ H).
  - intros a f Ha Hn.
    destruct (load_range_positions a f Ha) as (H1 & Ma & Mf).
    unfold load_range. cbv zeta. rewrite H1, Ma, Hn.
    destruct (Z.ltb_spec (Z.of_nat (String.length a)) 0);
      [lia | reflexivity].
Qed.

Lemma load_range_refused_witness :
  load_range (one_file "f" "1") None "f" []
  = ([], Exit 1 Cout "Range start missing")
  /\ load_range (one_file "f" "1") None ("1k" ++ "," ++ "f") []
     = ([], Exit 1 Cout msg_range).
Proof.
  destruct (load_range_refused (one_file "f" "1") None []) as [H1 H2].
  split; [apply H1 | apply H2]; reflexivity.
Defined.

(** ** Load ranges: the lines of the file *)

Lemma find_last_blank (line : string) :
  all_blank line = true -> Std.find_last_not_of blanks line = None.
Proof.
  induction line as [|c line IH]; simpl; intros H; [reflexivity|].
  apply andb_prop in H as [Hc Hl]. now rewrite (IH Hl), Hc.
Qed.

Lemma load_line_blank (addr : Z) (line : string) (m : Memory) :
  all_blank line = true -> load_line addr line m = (m, Done addr).
Proof.
  intros H. unfold load_line. now rewrite (find_last_blank line H).
Qed.

(** X22.  Lines made of spaces, tabs and newlines only are passed over:
    taking them out of the file changes neither what is written, nor where,
    nor how the run ends. *)
Theorem blank_lines_are_skipped (addr : Z) (lines : list string)
    (m : Memory) :
  load_lines addr lines m
  = load_lines addr (filter (fun l => negb (all_blank l)) lines) m.
Proof.
  revert addr m. induction lines as [|l lines IH]; intros addr m;
    [reflexivity|].
  simpl. destruct (all_blank l) eqn:Hl; simpl.
  - unfold bind. rewrite (load_line_blank addr l m Hl). apply IH.
  - unfold bind. destruct (load_line addr l m) as [m' [addr'| |]];
      [apply IH | reflexivity | reflexivity].
Qed.

Lemma load_line_value (addr : Z) (line : string) (v : Z) (m : Memory) :
  line_value line = Some v ->
  load_line addr line m
  = ((m ++ [(addr, to_uint32 v)])%list, Done (to_uint32 (addr + 4))).
Proof.
  unfold line_value, load_line.
  destruct (Std.find_last_not_of blanks line) as [e|]; [|discriminate].
  destruct (Std.find_first_not_of blanks line) as [b|]; [|discriminate].
  cbv zeta.
  destruct (Std.stoul _ 0) as [[w idx]|x]; [|discriminate].
  destruct (idx =? _)%nat; [|discriminate].
  intros H. injection H as ->. reflexivity.
Qed.

Lemma load_lines_words (addr k : Z) (lines : list string) (vs : list Z)
    (m : Memory) :
  Forall2 (fun l v => line_value l = Some v) lines vs ->
  load_lines (to_uint32 (addr + 4 * k)) lines m
  = ((m ++ words_at addr k vs)%list, Done tt).
Proof.
  intros H. revert k m.
  induction H as [|l v lines vs Hl _ IH]; intros k m;
    cbn [load_lines words_at].
  - unfold ret. now rewrite app_nil_r.
  - unfold bind. rewrite (load_line_value _ l v m Hl). cbv beta iota.
    replace (to_uint32 (to_uint32 (addr + 4 * k) + 4))
      with (to_uint32 (addr + 4 * (k + 1))).
    + rewrite IH, <- app_assoc. reflexivity.
    + unfold to_uint32. rewrite Zplus_mod_idemp_l. f_equal. lia.
Qed.

(** X23.  When every line of a file holds a number, the words are written
    in the order of the lines, one per line, the [k]-th at [addr + 4 k]
    modulo [2^32] and each taken modulo [2^32]; the run then goes on. *)
Theorem load_lines_addresses (addr : Z) (lines : list string) (vs : list Z)
    (m : Memory) :
  0 <= addr < UINT32_MOD ->
  Forall2 (fun l v => line_value l = Some v) lines vs ->
  load_lines addr lines m = ((m ++ words_at addr 0 vs)%list, Done tt)
  /\ length (words_at addr 0 vs) = length lines.
Proof.
  intros Ha H. split.
  - rewrite <- (load_lines_words addr 0 lines vs m H).
    f_equal. unfold to_uint32. rewrite Z.mod_small; lia.
  - apply Forall2_length in H. rewrite H. clear. generalize 0.
    induction vs as [|v vs IH]; intros k; cbn [words_at length];
      [reflexivity|].
    f_equal. apply IH.
Qed.

Lemma load_lines_addresses_witness :
  load_lines 4294967292 ["  1"; "0x10 "; "4294967298"] [(0, 7)]
  = ([(0, 7); (4294967292, 1); (0, 16); (4, 2)], Done tt)
  /\ length (words_at 4294967292 0 [1; 16; 4294967298]) = 3%nat.
Proof.
  apply (load_lines_addresses 4294967292 ["  1"; "0x10 "; "4294967298"]
                              [1; 16; 4294967298] [(0, 7)]).
  - vm_compute. split; [discriminate | reflexivity].
  - apply Forall2_cons; [reflexivity|].
    apply Forall2_cons; [reflexivity|].
    apply Forall2_cons; [reflexivity|].
    apply Forall2_nil.
Defined.

(** ** Load ranges: signs and trailing characters *)

Section Lines.

Lemma blank_is_space (c : ascii) :
  Std.in_set blanks c = true -> is_space c = true.
Proof.
  intros H. destruct c as [[] [] [] [] [] [] [] []];
    first [reflexivity | discriminate H].
Qed.

Lemma not_space_not_blank (c : ascii) :
  is_space c = false -> Std.in_set blanks c = false.
Proof.
  intros H. destruct (Std.in_set blanks c) eqn:E; [|reflexivity].
  apply blank_is_space in E. congruence.
Qed.

Lemma take_all (s : string) : Std.take (String.length s) s = s.
Proof. induction s as [|c s IH]; simpl; [reflexivity | now rewrite IH]. Qed.

Lemma find_last_ends (s : string) (x : ascii) :
  Std.in_set blanks x = false ->
  Std.find_last_not_of blanks (s ++ String x "") = Some (String.length s).
Proof.
  intros Hx. induction s as [|c s IH]; simpl.
  - now rewrite Hx.
  - now rewrite IH.
Qed.

Lemma find_last_no_space (c : ascii) (s : string) :
  no_space (String c s) = true ->
  Std.find_last_not_of blanks (String c s) = Some (String.length s).
Proof.
  revert c. induction s as [|d s IH]; intros c H.
  - simpl in *. rewrite andb_true_r in H. apply negb_true_iff in H.
    now rewrite (not_space_not_blank c H).
  - change (no_space (String c (String d s)))
      with (negb (is_space c) && no_space (String d s)) in H.
    apply andb_prop in H as [_ H].
    change (Std.find_last_not_of blanks (String c (String d s)))
      with (match Std.find_last_not_of blanks (String d s) with
            | Some i => Some (S i)
            | None => if Std.in_set blanks c then None else Some O
            end).
    now rewrite (IH d H).
Qed.

(** The trimming of a line that neither begins nor ends with a blank
    gives the line itself. *)
Lemma load_line_untrimmed (addr : Z) (c : ascii) (s : string) (m : Memory) :
  Std.in_set blanks c = false ->
  Std.find_last_not_of blanks (String c s) = Some (String.length s) ->
  load_line addr (String c s) m
  = match Std.stoul (String c s) 0 with
    | inl (v, idx) =>
        if negb (idx =? String.length (String c s))%nat
        then (m, Exit 1 Cout "cannot parse load range data.")
        else ((m ++ [(addr, to_uint32 v)])%list, Done (to_uint32 (addr + 4)))
    | inr e => (m, Uncaught e)
    end.
Proof.
  intros Hc Hl. unfold load_line. rewrite Hl.
  cbn [Std.find_first_not_of]. rewrite Hc. cbv zeta.
  unfold Std.substr, Std.substr_from. cbn [Std.drop].
  replace (String.length s + 1)%nat with (String.length (String c s))
    by (simpl; lia).
  rewrite take_all.
  destruct (Std.stoul (String c s) 0) as [[v idx]|e]; [|reflexivity].
  destruct (negb (idx =? String.length (String c s))%nat); reflexivity.
Qed.

Lemma detect_decimal (c : ascii) (t : string) (n : nat) :
  is_digit c = true -> c <> "0"%char ->
  Scan.detect 0 (String c t) n = (10, String c t, n).
Proof.
  intros Hc H0. destruct c as [[] [] [] [] [] [] [] []];
    first [discriminate Hc | now contradiction H0 | reflexivity].
Qed.

Lemma digits_then_stop (base : Z) (s : string) (x : ascii) (r : string) :
  all_in base s = true -> digit_in base x = None ->
  forall acc n,
    Scan.digits base (s ++ String x r) acc n
    = (value_in base acc s, (n + String.length s)%nat).
Proof.
  intros Hs Hx. induction s as [|c s IH]; simpl; intros acc n.
  - rewrite Hx. f_equal. lia.
  - simpl in Hs. destruct (digit_in base c) as [d|]; [|discriminate].
    rewrite (IH Hs). f_equal. lia.
Qed.

Lemma mod_mod_uint32 (v : Z) : to_uint32 (v mod ULONG_MOD) = to_uint32 v.
Proof.
  unfold to_uint32. apply Z.mod_mod_divide.
  exists (2 ^ 32). reflexivity.
Qed.

End Lines.

(** X24.  A line that holds a minus sign and a decimal number within
    [unsigned long] is not refused: the word written is the negated number
    modulo [2^32]. *)
Theorem load_line_negative (addr : Z) (c : ascii) (t : string) (m : Memory) :
  is_digit c = true -> c <> "0"%char -> all_in 10 t = true ->
  value_in 10 0 (String c t) <= ULONG_MAX ->
  load_line addr (String "-" (String c t)) m
  = ((m ++ [(addr, (- value_in 10 0 (String c t)) mod 2 ^ 32)])%list,
     Done (to_uint32 (addr + 4))).
Proof.
  intros Hc H0 Ht Hv.
  assert (Hall : all_in 10 (String c t) = true)
    by (simpl; now rewrite (digit_in_10 c Hc)).
  assert (Hns : no_space (String "-" (String c t)) = true)
    by exact (all_in_no_space 10 _ Hall).
  rewrite load_line_untrimmed;
    [|reflexivity | exact (find_last_no_space _ _ Hns)].
  assert (Hscan : Scan.number 0 (String "-" (String c t))
                  = Some (Scan.mk true (value_in 10 0 (String c t))
                                  (String.length (String "-" (String c t))))).
  { unfold Scan.number.
    change (Scan.skip_space (String "-" (String c t)) 0)
      with (String "-" (String c t), O).
    cbv zeta beta iota.
    change (Scan.sign (String "-" (String c t)) 0)
      with (true, String c t, 1%nat).
    cbv zeta beta iota.
    rewrite (detect_decimal c t 1 Hc H0). cbv zeta beta iota.
    rewrite (digits_all_in 10 _ Hall 0 0). reflexivity. }
  unfold Std.stoul. rewrite Hscan. cbn [Scan.mag Scan.neg Scan.used].
  destruct (Z.gtb_spec (value_in 10 0 (String c t)) ULONG_MAX); [lia|].
  rewrite Nat.eqb_refl. cbn [negb]. rewrite mod_mod_uint32. reflexivity.
Qed.

Lemma load_line_negative_witness :
  load_line 8 "-5" [] = ([(8, 4294967291)], Done 12).
Proof.
  apply (load_line_negative 8 "5" "" []);
    [reflexivity | discriminate | reflexivity | vm_compute; discriminate].
Defined.

(** X25.  A line that holds a decimal number within [unsigned long]
    followed by one more character that is neither a digit nor a blank, such
    as the carriage return of a file with CR LF line ends, stops the run
    with [cannot parse load range data.]; nothing is written for it. *)
Theorem load_line_trailing_character (addr : Z) (c x : ascii) (t : string)
    (m : Memory) :
  is_digit c = true -> c <> "0"%char -> all_in 10 t = true ->
  digit_in 10 x = None -> Std.in_set blanks x = false ->
  value_in 10 0 (String c t) <= ULONG_MAX ->
  load_line addr (String c t ++ String x "") m
  = (m, Exit 1 Cout "cannot parse load range data.").
Proof.
  intros Hc H0 Ht Hx Hb Hv.
  assert (Hall : all_in 10 (String c t) = true)
    by (simpl; now rewrite (digit_in_10 c Hc)).
  change (String c t ++ String x "") with (String c (t ++ String x "")).
  rewrite load_line_untrimmed;
    [|exact (not_space_not_blank c (digit_not_space c Hc))
     |pose proof (find_last_ends (String c t) x Hb) as Hl;
      cbn [append String.length] in Hl; rewrite Hl, strlen_app;
      simpl; f_equal; lia].
  assert (Hscan : Scan.number 0 (String c (t ++ String x ""))
                  = Some (Scan.mk false (value_in 10 0 (String c t))
                                  (String.length (String c t)))).
  { unfold Scan.number.
    cbn [Scan.skip_space]. rewrite (digit_not_space c Hc).
    rewrite (digit_no_sign c _ 0 Hc). cbv zeta beta iota.
    rewrite (detect_decimal c _ 0 Hc H0). cbv zeta beta iota.
    change (String c (t ++ String x "")) with (String c t ++ String x "").
    rewrite (digits_then_stop 10 _ x "" Hall Hx 0 0). reflexivity. }
  unfold Std.stoul. rewrite Hscan. cbn [Scan.mag Scan.neg Scan.used].
  destruct (Z.gtb_spec (value_in 10 0 (String c t)) ULONG_MAX); [lia|].
  replace (String.length (String c t)
           =? String.length (String c (t ++ String x "")))%nat
    with false; [reflexivity|].
  symmetry. apply Nat.eqb_neq. simpl. rewrite strlen_app. simpl. lia.
Qed.

Lemma load_line_trailing_character_witness :
  load_line 8 ("12" ++ String "013" "") [(4, 1)]
  = ([(4, 1)], Exit 1 Cout "cannot parse load range data.").
Proof.
  apply (load_line_trailing_character 8 "1" "013" "2" [(4, 1)]);
    [reflexivity | discriminate | reflexivity | reflexivity | reflexivity|].
  vm_compute. discriminate.
Defined.

(** ** Load ranges: the lines of a file *)

Lemma append_assoc (a b c : string) : (a ++ b) ++ c = a ++ b ++ c.
Proof. induction a as [|x a IH]; simpl; [reflexivity | now rewrite IH]. Qed.

Lemma getlines_from_line (l rest cur : string) :
  no_newline l = true ->
  Std.getlines_from cur (l ++ nl ++ rest)
  = (cur ++ l) :: Std.getlines_from "" rest.
Proof.
  revert cur. induction l as [|c l IH]; intros cur H.
  - simpl. f_equal. clear. induction cur as [|x cur IH];
      simpl; [reflexivity | now rewrite <- IH].
  - simpl in H. apply andb_prop in H as [Hc Hl].
    apply negb_true_iff in Hc.
    change (String c l ++ nl ++ rest) with (String c (l ++ nl ++ rest)).
    cbn [Std.getlines_from]. rewrite Hc, (IH _ Hl), append_assoc.
    reflexivity.
Qed.

Lemma getlines_from_end (l cur : string) :
  no_newline l = true ->
  Std.getlines_from cur l
  = if (cur ++ l =? "")%string then [] else [cur ++ l].
Proof.
  revert cur. induction l as [|c l IH]; intros cur H.
  - simpl. assert (E : cur ++ "" = cur)
      by (clear; induction cur as [|x cur IH]; simpl;
          [reflexivity | now rewrite IH]).
    now rewrite E.
  - simpl in H. apply andb_prop in H as [Hc Hl].
    apply negb_true_iff in Hc.
    cbn [Std.getlines_from]. rewrite Hc, (IH _ Hl), append_assoc.
    reflexivity.
Qed.

(** X26.  The loop of [load_ranges] sees a file as its lines: a file
    written line by line, each line closed by a newline, gives back exactly
    those lines, empty ones included, and a last line that is not closed
    counts when it is not empty.  An empty file has no line. *)
Theorem file_lines_of_written_file (name : string) (lines : list string) :
  Forall (fun l => no_newline l = true) lines ->
  file_lines (one_file name (unlines lines)) name = lines
  /\ (forall last,
         no_newline last = true -> last <> "" ->
         file_lines (one_file name (unlines lines ++ last)) name
         = (lines ++ [last])%list).
Proof.
  intros H. unfold file_lines, one_file. rewrite String.eqb_refl.
  unfold Std.getlines. split.
  - induction H as [|l lines Hl _ IH]; [reflexivity|].
    cbn [unlines]. rewrite (getlines_from_line l _ "" Hl), IH. reflexivity.
  - intros last Hlast Hne.
    induction H as [|l lines Hl _ IH].
    + cbn [unlines app append]. rewrite (getlines_from_end last "" Hlast).
      cbn [append]. destruct (String.eqb_spec last ""); [contradiction|].
      reflexivity.
    + cbn [unlines]. rewrite !append_assoc.
      rewrite (getlines_from_line l _ "" Hl), IH. reflexivity.
Qed.

Lemma file_lines_of_written_file_witness :
  file_lines (one_file "f" (unlines ["1"; ""; " 2"])) "f" = ["1"; ""; " 2"]
  /\ file_lines (one_file "f" (unlines ["1"; ""; " 2"] ++ "3")) "f"
     = ["1"; ""; " 2"; "3"].
Proof.
  destruct (file_lines_of_written_file "f" ["1"; ""; " 2"]) as [H1 H2].
  - apply Forall_cons; [reflexivity|].
    apply Forall_cons; [reflexivity|].
    apply Forall_cons; [reflexivity|]. apply Forall_nil.
  - split; [exact H1|]. apply H2; [reflexivity | discriminate].
Defined.

(** ** Cache dimensions are read in base 10, in every cache text *)

(** On a run of decimal digits [toLong()] gives the decimal value when it
    fits a [long], and fails otherwise. *)
Lemma toLong_decimal_text (s : string) :
  decimal_text s = true ->
  Qt.toLong s = if decimal s <=? LONG_MAX then decimal s else 0.
Proof.
  intros H. destruct (Z.leb_spec (decimal s) LONG_MAX) as [Hle|Hgt].
  - now apply toLong_decimal.
  - unfold decimal_text in H. apply andb_prop in H as [Hne Hd].
    unfold Qt.toLong, Qt.toLong_ok, Qt.to_signed.
    rewrite (trimmed_digits s Hd).
    destruct s as [|c s]; [discriminate Hne|].
    pose proof Hd as Hd'. simpl in Hd'. apply andb_prop in Hd' as [Hc Hs].
    unfold Scan.number.
    cbn [Scan.skip_space]. rewrite (digit_not_space c Hc).
    rewrite (digit_no_sign c s 0 Hc).
    change (Scan.detect 10 (String c s) 0) with (10, String c s, O).
    cbv zeta beta iota.
    rewrite (digits_decimal (String c s) Hd 0 0).
    cbn [String.length Nat.add Scan.neg Scan.mag Scan.used].
    fold (decimal (String c s)).
    destruct (Z.leb_spec (decimal (String c s)) LONG_MAX); [lia|].
    rewrite andb_false_r. reflexivity.
Qed.

(** What a cache text that is accepted leaves in the object. *)
Lemma configure_cache_done (args : list string) (raw which : string)
    (c c' : MachineConfigCache) :
  configure_cache (args ++ [raw]) which c = (c', Done tt) ->
  enabled c' = true
  /\ forall i, (i < 3)%nat ->
               dimension c' i
               = to_uint32 (Qt.toLong (at_ (geometry_fields raw) i))
               /\ dimension c' i <> 0.
Proof.
  rewrite configure_cache_last, configure_cache_one.
  destruct (length (Qt.split raw) <? 3)%nat; [discriminate|].
  destruct (String.length (at_ (Qt.split raw) 0) <? 1)%nat; [discriminate|].
  unfold bind.
  match goal with
  | |- context [cache_policy _ _ ?c1] =>
      destruct (cache_policy_cases raw which c1) as [[rp E] | E]; rewrite E
  end; [|discriminate].
  match goal with
  | |- context [cache_dimensions ?f ?w ?c2] =>
      destruct (cache_dimensions_cases f w c2)
        as [[_ E1] | [(_ & _ & E1) | (_ & Hs & Hb & Ha & E1)]];
      rewrite E1
  end; [discriminate | discriminate |].
  match goal with
  | |- context [cache_write_policy ?f ?w ?c3] =>
      destruct (cache_write_policy_cases f w c3) as [[wp [E2 _]] | E2];
      rewrite E2
  end; [|discriminate].
  intros H. injection H as <-.
  split; [reflexivity|].
  intros i Hi. destruct i as [|[|[|i]]]; [| | |lia];
    cbn [dimension sets blocks associativity]; split;
    first [reflexivity | assumption].
Qed.

(** A cache text with a dimension field that reads as 0 does not get past
    the dimensions. *)
Lemma configure_cache_zero_field (args : list string) (raw which : string)
    (c : MachineConfigCache) (i : nat) :
  (i < 3)%nat ->
  to_uint32 (Qt.toLong (at_ (geometry_fields raw) i)) = 0 ->
  snd (configure_cache (args ++ [raw]) which c)
  = Exit 1 Cerr (msg_parameters which)
  \/ snd (configure_cache (args ++ [raw]) which c)
     = Exit 1 Cerr (msg_policy which)
  \/ snd (configure_cache (args ++ [raw]) which c)
     = Exit 1 Cerr (msg_zero which).
Proof.
  intros Hi H0.
  rewrite configure_cache_last, configure_cache_one.
  destruct (length (Qt.split raw) <? 3)%nat; [left; reflexivity|].
  destruct (String.length (at_ (Qt.split raw) 0) <? 1)%nat;
    [right; left; reflexivity|].
  unfold bind.
  match goal with
  | |- context [cache_policy _ _ ?c1] =>
      destruct (cache_policy_cases raw which c1) as [[rp E] | E]; rewrite E
  end; [|right; left; reflexivity].
  match goal with
  | |- context [cache_dimensions ?f ?w ?c2] =>
      destruct (cache_dimensions_cases f w c2)
        as [[_ E1] | [(_ & _ & E1) | (_ & Hs & Hb & Ha & E1)]];
      rewrite E1
  end; [left; reflexivity | right; right; reflexivity |].
  exfalso.
  destruct i as [|[|[|i]]]; [contradiction | contradiction | contradiction|].
  lia.
Qed.

(** C3, amended.  In every cache text, whatever its policy word and whether
    or not a write-policy field follows, the three dimensions are read in
    base 10.  Whenever the text is accepted, each dimension is what
    [toLong()] gives for its field, modulo [2^32]; for a field that is a run
    of decimal digits, leading zeros allowed, that is its decimal value
    modulo [2^32].  A text in which one of the three fields begins with [0x]
    or [0X] is never accepted: that field reads as 0 and the run stops with
    the parameters, the policy or the zero-component diagnostic.  Decimal
    fields between 1 and [2^32 - 1] after [lru] are accepted.  So
    [lru,4,2,2] gives 4 sets, [lru,010,2,2] and [lru,010,2,2,wb] give 10
    sets, and [lru,0x4,2,2,wb] stops with the zero-component diagnostic. *)
Theorem cache_dimensions_are_decimal :
  (forall (args : list string) (raw which : string)
          (c c' : MachineConfigCache) (i : nat),
      (i < 3)%nat ->
      configure_cache (args ++ [raw]) which c = (c', Done tt) ->
      dimension c' i = to_uint32 (Qt.toLong (at_ (geometry_fields raw) i))
      /\ (decimal_text (at_ (geometry_fields raw) i) = true ->
          dimension c' i = decimal (at_ (geometry_fields raw) i) mod 2 ^ 32))
  /\ (forall (args : list string) (raw which : string)
             (c : MachineConfigCache) (i : nat) (x : ascii) (t : string),
         (i < 3)%nat ->
         x = "x"%char \/ x = "X"%char ->
         at_ (geometry_fields raw) i = String "0" (String x t) ->
         snd (configure_cache (args ++ [raw]) which c)
         = Exit 1 Cerr (msg_parameters which)
         \/ snd (configure_cache (args ++ [raw]) which c)
            = Exit 1 Cerr (msg_policy which)
         \/ snd (configure_cache (args ++ [raw]) which c)
            = Exit 1 Cerr (msg_zero which))
  /\ (forall (which s b a : string) (c : MachineConfigCache),
         decimal_text s = true -> decimal_text b = true ->
         decimal_text a = true ->
         0 < decimal s < UINT32_MOD -> 0 < decimal b < UINT32_MOD ->
         0 < decimal a < UINT32_MOD ->
         configure_cache ["lru," ++ s ++ "," ++ b ++ "," ++ a] which c
         = (mkCache true (decimal s) (decimal b) (decimal a) RP_LRU
                    (write_policy c), Done tt))
  /\ (forall t : string,
         Qt.toLong (String "0" (String "x" t)) = 0
         /\ Qt.toLong (String "0" (String "X" t)) = 0)
  /\ sets (fst (configure_cache ["lru,4,2,2"] "data" fresh_cache)) = 4
  /\ sets (fst (configure_cache ["lru,010,2,2"] "data" fresh_cache)) = 10
  /\ configure_cache ["lru,010,2,2,wb"] "data" fresh_cache
     = (mkCache true 10 2 2 RP_LRU WP_BACK, Done tt)
  /\ snd (configure_cache ["lru,0x4,2,2,wb"] "data" fresh_cache)
     = Exit 1 Cerr (msg_zero "data").
Proof.
  split; [|split; [|split; [|split; [|repeat split; vm_compute; reflexivity]]]].
  - intros args raw which c c' i Hi H.
    destruct (configure_cache_done args raw which c c' H) as [_ Hdim].
    destruct (Hdim i Hi) as [Hval Hnz].
    split; [exact Hval|].
    intros Hdec. rewrite Hval in *.
    rewrite (toLong_decimal_text _ Hdec) in *.
    destruct (decimal (at_ (geometry_fields raw) i) <=? LONG_MAX);
      [reflexivity | now contradiction Hnz].
  - intros args raw which c i x t Hi Hx Hf.
    apply (configure_cache_zero_field args raw which c i Hi).
    rewrite Hf, (toLong_hex_prefix x t Hx). reflexivity.
  - intros which s b a c Hs Hb Ha Rs Rb Ra.
    pose proof Hs as Hs'. pose proof Hb as Hb'. pose proof Ha as Ha'.
    unfold decimal_text in Hs', Hb', Ha'.
    apply andb_prop in Hs' as [_ Ds]. apply andb_prop in Hb' as [_ Db].
    apply andb_prop in Ha' as [_ Da].
    assert (Hsplit : Qt.split ("lru," ++ s ++ "," ++ b ++ "," ++ a)
                     = ["lru"; s; b; a]).
    { change ("lru," ++ s ++ "," ++ b ++ "," ++ a)
        with ("lru" ++ String "," (s ++ String "," (b ++ String "," a))).
      rewrite (split_at_comma "lru") by reflexivity.
      rewrite (split_at_comma s) by (apply digits_no_comma; exact Ds).
      rewrite (split_at_comma b) by (apply digits_no_comma; exact Db).
      rewrite (split_no_comma a) by (apply digits_no_comma; exact Da).
      reflexivity. }
    unfold configure_cache.
    change (at_ [_] (length [_] - 1))
      with ("lru," ++ s ++ "," ++ b ++ "," ++ a).
    rewrite Hsplit.
    change (length [_] <? 1)%nat with false.
    unfold set_enabled, cache_policy, cache_dimensions, cache_write_policy,
      set_replacement_policy, set_sets, set_blocks, set_associativity.
    run. cbn -[Qt.toLong to_uint32 decimal].
    rewrite (toLong_decimal s Hs), (toLong_decimal b Hb),
      (toLong_decimal a Ha)
      by (unfold LONG_MAX, UINT32_MOD in *; lia).
    unfold to_uint32.
    rewrite !Z.mod_small by lia.
    destruct (Z.eqb_spec (decimal s) 0); [lia|].
    destruct (Z.eqb_spec (decimal b) 0); [lia|].
    destruct (Z.eqb_spec (decimal a) 0); [lia|].
    reflexivity.
  - intros t. split; apply toLong_hex_prefix; auto.
Qed.

Lemma cache_dimensions_are_decimal_witness :
  (dimension (mkCache true 10 2 16 RP_LFU WP_BACK) 0
   = to_uint32 (Qt.toLong (at_ (geometry_fields "LFU,010,2,16,wb") 0))
   /\ (decimal_text (at_ (geometry_fields "LFU,010,2,16,wb") 0) = true ->
       dimension (mkCache true 10 2 16 RP_LFU WP_BACK) 0
       = decimal (at_ (geometry_fields "LFU,010,2,16,wb") 0) mod 2 ^ 32))
  /\ (snd (configure_cache (["1,1,1"] ++ ["4,2,0X10,wt"]) "data" fresh_cache)
      = Exit 1 Cerr (msg_parameters "data")
      \/ snd (configure_cache (["1,1,1"] ++ ["4,2,0X10,wt"]) "data"
                              fresh_cache)
         = Exit 1 Cerr (msg_policy "data")
      \/ snd (configure_cache (["1,1,1"] ++ ["4,2,0X10,wt"]) "data"
                              fresh_cache)
         = Exit 1 Cerr (msg_zero "data"))
  /\ configure_cache ["lru," ++ "010" ++ "," ++ "2" ++ "," ++ "16"] "data"
                     fresh_cache
     = (mkCache true 10 2 16 RP_LRU WP_THROUGH_NOALLOC, Done tt).
Proof.
  destruct cache_dimensions_are_decimal as (Hdone & Hhex & Hlru & _).
  split; [|split].
  - apply (Hdone ["1,1,1"] "LFU,010,2,16,wb" "data" fresh_cache
                 (mkCache true 10 2 16 RP_LFU WP_BACK) 0%nat);
      [lia | reflexivity].
  - apply (Hhex ["1,1,1"] "4,2,0X10,wt" "data" fresh_cache 2%nat "X"%char "10");
      [lia | right; reflexivity | reflexivity].
  - apply (Hlru "data" "010" "2" "16" fresh_cache);
      try reflexivity; vm_compute; split; reflexivity.
Defined.

(** ** Repeated flags, flag by flag *)








